(** * Bidder.py: budget-constrained bidding controllers

    A shallow embedding of [src/Bidder.py].

    Numbers.  Python's numeric values (floats, NumPy float64 scalars and the
    integer constants mixed with them) are modelled as exact rationals [Q]:
    the arithmetic below is the arithmetic of the source without rounding.
    Equality of numbers is [Qeq] ([==]); where the code only copies or adds
    values the statements are given with Leibniz equality.  The response
    curve [spend2value] needs a square root and a derivative; it is modelled
    over the real numbers in [Module Curve].

    Rounding.  The program computes in binary64.  Properties of the
    controllers' multiplier are therefore stated through the expressions
    the code itself evaluates ([roi_bid - bid_step], [roi_bid + bid_step],
    the running sum of prices) and through comparisons, not through
    distances or closed forms derived by algebra.  [Module Binary64] embeds
    the solver and [IMPCBudgetBidder.charge] over primitive binary64
    floats; it is where the effect of rounding on a step is evaluated.
    In [Q] a division by 0 yields 0, where NumPy yields inf or nan.

    Round indices and the [rounds_per_*] / [memory] settings are Python
    integers, modelled as [Z]; Python's [%] on integers is [Z.modulo] (sign
    of the divisor) and raises [ZeroDivisionError] when the divisor is 0. *)

From Stdlib Require Import Reals Qreals QArith Qabs ZArith List Lia Bool Psatz.
From Stdlib Require Import Sorting.Sorted Sorting.Permutation.
From Stdlib Require PrimFloat.
From Equations Require Import Equations.
Import ListNotations.
Open Scope Q_scope.

(** ** Samples *)

(** A sample is the two-element list [[bid, spend]] of the source. *)
Definition sample : Type := (Q * Q)%type.

Definition s0 (s : sample) : Q := fst s.
Definition s1 (s : sample) : Q := snd s.

(** ** Helpers for the Python and NumPy primitives the source uses *)

Definition Qltb (x y : Q) : bool := negb (Qle_bool y x).

(** [np.minimum], [np.maximum] *)
Definition minimum (x y : Q) : Q := if Qltb y x then y else x.
Definition maximum (x y : Q) : Q := if Qltb x y then y else x.

(** [sum] of a list of numbers, left to right, starting from 0. *)
Definition Qsum (l : list Q) : Q := fold_left Qplus l 0.

(** [np.mean] of a non-empty sequence: the sum divided by the length. *)
Definition mean (l : list Q) : Q := Qsum l / inject_Z (Z.of_nat (length l)).

(** [list(map(np.mean, zip( *current )))] for two-element samples: the mean
    of the bids and the mean of the spends. *)
Definition mean_sample (current : list sample) : sample :=
  (mean (map s0 current), mean (map s1 current)).

(** Python's [<] on two-element lists: lexicographic. *)
Definition sample_ltb (a b : sample) : bool :=
  if Qeq_bool (s0 a) (s0 b) then Qltb (s1 a) (s1 b) else Qltb (s0 a) (s0 b).

(** [sorted]: a stable sort that only uses [<].  An element is placed
    before the first element that is not smaller than it. *)
Fixpoint insert_sorted (x : sample) (l : list sample) : list sample :=
  match l with
  | [] => [x]
  | y :: l' => if sample_ltb y x then y :: insert_sorted x l' else x :: l
  end.

Definition sorted (l : list sample) : list sample :=
  fold_right insert_sorted [] l.

(** [l[-m:]] for an integer [m]: Python slice semantics.  A negative start
    counts from the end and is clipped at 0; [-0] is [0], so [l[-0:]] is the
    whole list; a positive start ([m < 0]) drops that many elements. *)
Definition slice_last (m : Z) (A : Type) (l : list A) : list A :=
  let len := Z.of_nat (length l) in
  let start := (- m)%Z in
  let start' := if (start <? 0)%Z then Z.max (len + start) 0 else Z.min start len in
  skipn (Z.to_nat start') l.
Arguments slice_last m {A} l.

(** ** The curve solver *)

(** [aggregate_near_sample(samples, distance)].  [current] and [result] are
    the loop variables of the source; [result] is kept in order.  In the
    [else] branch the source appends the mean of [current] and sets
    [current = []]: the sample [s] being examined is not put anywhere. *)
Fixpoint aggregate_loop (distance : Q) (samples current result : list sample)
  : list sample :=
  match samples with
  | [] =>
      match current with
      | [] => result
      | _ :: _ => result ++ [mean_sample current]
      end
  | s :: rest =>
      match current with
      | [] => aggregate_loop distance rest (current ++ [s]) result
      | c :: _ =>
          if Qltb (s0 s) (s0 c * (1 + distance))
          then aggregate_loop distance rest (current ++ [s]) result
          else aggregate_loop distance rest [] (result ++ [mean_sample current])
      end
  end.

Definition aggregate_near_sample_d (samples : list sample) (distance : Q)
  : list sample :=
  aggregate_loop distance samples [] [].

(** The default [distance=1e-6]. *)
Definition aggregate_near_sample (samples : list sample) : list sample :=
  aggregate_near_sample_d samples (1 # 1000000).

(** The binary search of [increasing_subsequence]:
    [while l < r: mid = (l + r) // 2; if s[1] >= result[mid][1]: l = mid + 1
    else: r = mid].  Returns the final [l]. *)
Equations? search (result : list sample) (s : sample) (l r : nat) : nat
  by wf (r - l)%nat lt :=
  search result s l r with lt_dec l r => {
    | left _ =>
        let mid := ((l + r) / 2)%nat in
        if Qle_bool (s1 (nth mid result s)) (s1 s)
        then search result s (mid + 1)%nat r
        else search result s l mid;
    | right _ => l }.
Proof.
  all: assert (Hmid : mid = ((l + r) / 2)%nat) by reflexivity;
    clearbody mid; subst mid;
    pose proof (Nat.div_mod_eq (l + r)%nat 2%nat) as Hm;
    pose proof (Nat.mod_upper_bound (l + r)%nat 2%nat ltac:(lia)) as Hb;
    lia.
Qed.

(** [result[l] = s] for an index inside the list. *)
Fixpoint set_at (l : nat) (s : sample) (result : list sample) : list sample :=
  match result, l with
  | [], _ => []
  | _ :: t, O => s :: t
  | x :: t, S l' => x :: set_at l' s t
  end.

Definition increasing_step (result : list sample) (s : sample) : list sample :=
  let l := search result s 0 (length result) in
  if (l =? length result)%nat then result ++ [s] else set_at l s result.

Definition increasing_subsequence (samples : list sample) : list sample :=
  fold_left increasing_step samples [].

(** [liner_solve(x1, y1, x2, y2, x)] *)
Definition liner_solve (x1 y1 x2 y2 x : Q) : Q :=
  if Qltb (Qabs (x1 - x2)) (1 # 1000000)
  then (y1 + y2) / 2
  else y1 + (y2 - y1) * (x - x1) / (x2 - x1).

(** The [while] loop of [impc]: walks the samples while their spend is
    below the target, remembering the last sample passed.  [None] means the
    loop ran off the end of the list ([i == len(samples)]). *)
Fixpoint impc_walk (target bid spend : Q) (samples : list sample) : option Q :=
  match samples with
  | [] => None
  | s :: rest =>
      if Qltb (s1 s) target
      then impc_walk target (s0 s) (s1 s) rest
      else Some (liner_solve spend bid (s1 s) (s0 s) target)
  end.

Definition impc (bid2spend : list sample) (target : Q) : Q :=
  let samples := sorted bid2spend in
  let samples := aggregate_near_sample samples in
  let samples := increasing_subsequence samples in
  match samples with
  | [] => 1
  | _ :: _ =>
      match impc_walk target 0 0 samples with
      | Some bid => bid
      | None =>
          let last := List.last samples (0, 0) in
          liner_solve 0 0 (s1 last) (s0 last) target
      end
  end.

(** ** Exceptions and method outcomes *)

Inductive exn : Type :=
| ZeroDivisionError
| IndexError.

(** Outcome of a constructor: the new object, or the exception raised. *)
Inductive construction (T : Type) : Type :=
| Ok (t : T)
| Err (e : exn).
Arguments Ok {T} t.
Arguments Err {T} e.

(** Outcome of a method that mutates [self]: the state of the object when
    the method returned, or the exception raised together with the state
    the object was left in at that point. *)
Inductive outcome (S : Type) : Type :=
| Returned (s : S)
| Raised (e : exn) (s : S).
Arguments Returned {S} s.
Arguments Raised {S} e s.

Definition state_of {S : Type} (o : outcome S) : S :=
  match o with
  | Returned s => s
  | Raised _ s => s
  end.

(** The [context] argument of [bid] is a feature vector; no controller
    reads it. *)
Definition context : Type := list Q.

(** ** BudgetRistrictedBidder and TruthfulBudgetRistricctedBidder *)

Module BudgetRistrictedBidder.

Record t : Type := Build {
  budget : Q;
  spending : Q
}.

(** [__init__]; [budget] is the value drawn by
    [rng.uniform( *budget_per_iter_range )]. *)
Definition init (budget : Q) (rounds_per_iter : Z) : t :=
  {| budget := budget; spending := 0 |}.

Definition charge (self : t) (price : Q) (round : Z) (estimated_CTR value : Q) : t :=
  {| budget := budget self; spending := spending self + price |}.

Definition update (self : t) : t :=
  {| budget := budget self; spending := 0 |}.

End BudgetRistrictedBidder.

Module TruthfulBudgetRistricctedBidder.
Import BudgetRistrictedBidder.

Definition bid (self : t) (value : Q) (ctx : context) (estimated_CTR : Q) : Q :=
  if Qltb (spending self) (budget self) then value * estimated_CTR else 0.

End TruthfulBudgetRistricctedBidder.

(** ** IMPCBudgetBidder *)

Module IMPCBudgetBidder.

Record t : Type := Build {
  budget : Q;
  spending : Q;
  rounds_per_step : Z;
  rounds_per_iter : Z;
  target_step_spending : Q;
  bid2spend_history : list sample;
  bid_step : Q;
  roi_bid : Q;
  step_spending : Q;
  memory : Z
}.

Definition set_spending (self : t) (v : Q) : t :=
  Build (budget self) v (rounds_per_step self) (rounds_per_iter self)
    (target_step_spending self) (bid2spend_history self) (bid_step self)
    (roi_bid self) (step_spending self) (memory self).

Definition set_bid2spend_history (self : t) (v : list sample) : t :=
  Build (budget self) (spending self) (rounds_per_step self) (rounds_per_iter self)
    (target_step_spending self) v (bid_step self)
    (roi_bid self) (step_spending self) (memory self).

Definition set_roi_bid (self : t) (v : Q) : t :=
  Build (budget self) (spending self) (rounds_per_step self) (rounds_per_iter self)
    (target_step_spending self) (bid2spend_history self) (bid_step self)
    v (step_spending self) (memory self).

Definition set_step_spending (self : t) (v : Q) : t :=
  Build (budget self) (spending self) (rounds_per_step self) (rounds_per_iter self)
    (target_step_spending self) (bid2spend_history self) (bid_step self)
    (roi_bid self) v (memory self).

(** [__init__].  [budget] is the value drawn by [rng.uniform]; it is a
    Python float, so [budget * rounds_per_step / rounds_per_iter] raises
    [ZeroDivisionError] when [rounds_per_iter] is 0. *)
Definition init (budget : Q) (rounds_per_iter rounds_per_step : Z)
    (bid_step : Q) (memory : Z) : construction t :=
  if (rounds_per_iter =? 0)%Z then Err ZeroDivisionError
  else Ok {| budget := budget;
             spending := 0;
             rounds_per_step := rounds_per_step;
             rounds_per_iter := rounds_per_iter;
             target_step_spending :=
               budget * inject_Z rounds_per_step / inject_Z rounds_per_iter;
             bid2spend_history := [];
             bid_step := bid_step;
             roi_bid := 1;
             step_spending := 0;
             memory := memory |}.

Definition calc_roi_bid (self : t) (target_step_spending : Q) : Q :=
  if Qltb (step_spending self) (1 # 1000000)
  then roi_bid self + bid_step self
  else
    let bid := impc (bid2spend_history self) target_step_spending in
    minimum (maximum bid (roi_bid self - bid_step self))
            (roi_bid self + bid_step self).

Definition charge (self : t) (price : Q) (cur_round : Z)
    (estimated_CTR vlaue : Q) : outcome t :=
  let self := set_spending self (spending self + price) in
  let self := set_step_spending self (step_spending self + price) in
  if (rounds_per_step self =? 0)%Z then Raised ZeroDivisionError self
  else if (cur_round mod rounds_per_step self =? 0)%Z then
    let self := set_bid2spend_history self
                  (bid2spend_history self ++ [(roi_bid self, step_spending self)]) in
    let self := set_roi_bid self (calc_roi_bid self (target_step_spending self)) in
    let self := set_step_spending self 0 in
    let self := set_bid2spend_history self
                  (slice_last (memory self) (bid2spend_history self)) in
    Returned self
  else Returned self.

(** The state in which [charge] evaluates [calc_roi_bid] at a step
    boundary: both counters charged and the new sample appended. *)
Definition at_boundary (self : t) (price : Q) : t :=
  let self := set_spending self (spending self + price) in
  let self := set_step_spending self (step_spending self + price) in
  set_bid2spend_history self
    (bid2spend_history self ++ [(roi_bid self, step_spending self)]).

Definition bid (self : t) (value : Q) (ctx : context) (estimated_CTR : Q) : Q :=
  if Qltb (spending self) (budget self)
  then value * estimated_CTR * roi_bid self
  else 0.

Definition update (self : t) : t := set_spending self 0.

(** The attributes that only [__init__] assigns. *)
Definition config (self : t) : Q * Z * Z * Q * Q * Z :=
  (budget self, rounds_per_step self, rounds_per_iter self,
   target_step_spending self, bid_step self, memory self).

(** [reset] assigns three attributes and nothing else. *)
Definition reset (self : t) : t :=
  let self := set_bid2spend_history self [] in
  let self := set_spending self 0 in
  set_roi_bid self 1.

End IMPCBudgetBidder.

(** ** BidCapBidder *)

Module BidCapBidder.
Import IMPCBudgetBidder.

(** Inherits [__init__], [bid], [update], [reset] and [calc_roi_bid].  An
    exception raised by the parent's [charge] propagates before the cap is
    applied. *)
Definition charge (self : t) (price : Q) (cur_round : Z)
    (estimated_CTR value : Q) : outcome t :=
  match IMPCBudgetBidder.charge self price cur_round estimated_CTR value with
  | Returned self => Returned (set_roi_bid self (minimum (roi_bid self) 1))
  | Raised e self => Raised e self
  end.

End BidCapBidder.

(** ** The response curve *)

(** [opt_spend(a, b)] *)
Definition opt_spend (a b : Q) : Q := (2 - 2 * b) / a.

(** [prices[won_mask]]: NumPy boolean-mask indexing keeps the entries whose
    mask is [True]; a mask of another length raises [IndexError]. *)
Fixpoint masked (xs : list Q) (mask : list bool) : option (list Q) :=
  match xs, mask with
  | [], [] => Some []
  | x :: xs', m :: mask' =>
      match masked xs' mask' with
      | Some r => Some (if m then x :: r else r)
      | None => None
      end
  | _, _ => None
  end.

(** ** SPBBidder *)

Module SPBBidder.

(** The attributes of the parent class are kept in [base]. *)
Record t : Type := Build {
  base : IMPCBudgetBidder.t;
  spb_memory : Z;
  explore_bid_max : Q;
  optimal_budget : Q;
  spend_history : list Q;
  value_history : list Q
}.

Definition set_base (self : t) (v : IMPCBudgetBidder.t) : t :=
  Build v (spb_memory self) (explore_bid_max self) (optimal_budget self)
    (spend_history self) (value_history self).

Definition set_optimal_budget (self : t) (v : Q) : t :=
  Build (base self) (spb_memory self) (explore_bid_max self) v
    (spend_history self) (value_history self).

Definition set_spend_history (self : t) (v : list Q) : t :=
  Build (base self) (spb_memory self) (explore_bid_max self) (optimal_budget self)
    v (value_history self).

Definition set_value_history (self : t) (v : list Q) : t :=
  Build (base self) (spb_memory self) (explore_bid_max self) (optimal_budget self)
    (spend_history self) v.

Definition init (budget : Q) (rounds_per_iter rounds_per_step : Z)
    (bid_step : Q) (memory spb_memory : Z) (explore_bid_max : Q) : construction t :=
  match IMPCBudgetBidder.init budget rounds_per_iter rounds_per_step bid_step memory with
  | Ok b => Ok {| base := b;
                  spb_memory := spb_memory;
                  explore_bid_max := explore_bid_max;
                  optimal_budget := -1;
                  spend_history := [];
                  value_history := [] |}
  | Err e => Err e
  end.

(** [charge].  [optimal_budget], when positive, is a NumPy scalar, and
    dividing one by 0 does not raise; [budget] is a Python float, and
    dividing it by 0 does.  No constructed controller has
    [rounds_per_iter = 0]. *)
Definition charge (self : t) (price : Q) (cur_round : Z)
    (estimated_CTR value : Q) : outcome t :=
  let b := base self in
  let b := IMPCBudgetBidder.set_spending b (IMPCBudgetBidder.spending b + price) in
  let b := IMPCBudgetBidder.set_step_spending b
             (IMPCBudgetBidder.step_spending b + price) in
  let rps := IMPCBudgetBidder.rounds_per_step b in
  let rpi := IMPCBudgetBidder.rounds_per_iter b in
  if (rps =? 0)%Z then Raised ZeroDivisionError (set_base self b)
  else if (cur_round mod rps =? 0)%Z then
    let b := IMPCBudgetBidder.set_bid2spend_history b
               (IMPCBudgetBidder.bid2spend_history b
                  ++ [(IMPCBudgetBidder.roi_bid b, IMPCBudgetBidder.step_spending b)]) in
    let finish (b : IMPCBudgetBidder.t) :=
      let b := IMPCBudgetBidder.set_step_spending b 0 in
      let b := IMPCBudgetBidder.set_bid2spend_history b
                 (slice_last (IMPCBudgetBidder.memory b)
                    (IMPCBudgetBidder.bid2spend_history b)) in
      Returned (set_base self b) in
    if Qltb 0 (optimal_budget self) then
      let target_step_spending :=
        optimal_budget self * inject_Z rps / inject_Z rpi in
      finish (IMPCBudgetBidder.set_roi_bid b
                (IMPCBudgetBidder.calc_roi_bid b target_step_spending))
    else if (rpi =? 0)%Z then Raised ZeroDivisionError (set_base self b)
    else
      let step_spending :=
        IMPCBudgetBidder.budget b * inject_Z rps / inject_Z rpi in
      let bid := IMPCBudgetBidder.calc_roi_bid b step_spending in
      finish (IMPCBudgetBidder.set_roi_bid b (minimum bid (explore_bid_max self)))
  else Returned (set_base self b).

(** [bid] is inherited. *)
Definition bid (self : t) (value : Q) (ctx : context) (estimated_CTR : Q) : Q :=
  IMPCBudgetBidder.bid (base self) value ctx estimated_CTR.

Section Fit.

(** [scipy.optimize.curve_fit] on [spend2value] from the start [[1, 1]]
    with bounds [[0, 0]], [[inf, inf]] and [maxfev=1000], as called by
    [fitf]: the fitted pair, or [None] when the call raises. *)
Variable curve_fit : list Q -> list Q -> option (Q * Q).

(** [fit_model(spend, value)] *)
Definition fit_model (spend value : list Q) : bool * Q * Q :=
  match curve_fit spend value with
  | Some (a, b) => (true, a, b)
  | None => (false, 1, 1)
  end.

(** First half of [update]: [if contexts is not None], the won spend
    and the value total are appended and both histories are cut to the
    last [spb_memory] entries.  [contexts] tells whether the argument is
    not [None].  [None] is the [IndexError] of [prices[won_mask]], raised
    before anything is assigned. *)
Definition record_iteration (self : t) (contexts : bool) (prices : list Q)
    (sum_values : Q) (won_mask : list bool) : option t :=
  if contexts then
    match masked prices won_mask with
    | None => None
    | Some won =>
        let self := set_spend_history self (spend_history self ++ [Qsum won]) in
        let self := set_spend_history self
                      (slice_last (spb_memory self) (spend_history self)) in
        let self := set_value_history self (value_history self ++ [sum_values]) in
        let self := set_value_history self
                      (slice_last (spb_memory self) (value_history self)) in
        Some self
    end
  else Some self.

(** Second half of [update]: the fit and the new [optimal_budget]. *)
Definition refit (self : t) : t :=
  let '(model_ready, a, b) :=
    if (1 <? length (spend_history self))%nat
    then fit_model (spend_history self) (value_history self)
    else (false, 1, 1) in
  let self :=
    if model_ready
    then set_optimal_budget self
           (minimum (opt_spend a b) (IMPCBudgetBidder.budget (base self)))
    else set_optimal_budget self (-1) in
  set_base self (IMPCBudgetBidder.set_spending (base self) 0).

(** [update]; [sum_values] is the fifth positional argument. *)
Definition update (self : t) (contexts : bool) (prices : list Q)
    (sum_values : Q) (won_mask : list bool) : outcome t :=
  match record_iteration self contexts prices sum_values won_mask with
  | None => Raised IndexError self
  | Some self => Returned (refit self)
  end.

End Fit.

(** The attributes that only [__init__] assigns. *)
Definition config (self : t) : (Q * Z * Z * Q * Q * Z) * Z * Q :=
  (IMPCBudgetBidder.config (base self), spb_memory self, explore_bid_max self).

Definition reset (self : t) : t :=
  let self := set_base self (IMPCBudgetBidder.reset (base self)) in
  let self := set_optimal_budget self (-1) in
  let self := set_spend_history self [] in
  set_value_history self [].

End SPBBidder.

(** ** MPCBidder (the PID controller on return on investment) *)

Module MPCBidder.

Record t : Type := Build {
  budget : Q;
  spending : Q;
  rounds_per_step : Z;
  rounds_per_iter : Z;
  bid_step : Q;
  roi_bid : Q;
  prediction_diff : Q;
  estimated_value : Q;
  memory : Z;
  value_history : list Q;
  estimated_value_history : list Q;
  bid_min : Q;
  bid_max : Q;
  kp : Q;
  ki : Q;
  kd : Q;
  error_p : Q;
  last_error_p : Q;
  error_i : Q;
  error_d : Q
}.

Definition init (budget : Q) (rounds_per_iter rounds_per_step : Z)
    (bid_step : Q) (memory : Z) (kp ki kd bid_min bid_max : Q) : t :=
  {| budget := budget; spending := 0;
     rounds_per_step := rounds_per_step; rounds_per_iter := rounds_per_iter;
     bid_step := bid_step; roi_bid := 1; prediction_diff := 1;
     estimated_value := 0; memory := memory;
     value_history := []; estimated_value_history := [];
     bid_min := bid_min; bid_max := bid_max;
     kp := kp; ki := ki; kd := kd;
     error_p := 0; last_error_p := 0; error_i := 0; error_d := 0 |}.

(** The charged part of [charge]: [if price > 0]. *)
Definition accumulate (self : t) (price estimated_CTR value : Q) : t :=
  if Qltb 0 price then
    Build (budget self) (spending self + price)
      (rounds_per_step self) (rounds_per_iter self) (bid_step self) (roi_bid self)
      (prediction_diff self) (estimated_value self + estimated_CTR * value)
      (memory self) (value_history self) (estimated_value_history self)
      (bid_min self) (bid_max self) (kp self) (ki self) (kd self)
      (error_p self) (last_error_p self) (error_i self) (error_d self)
  else self.

(** The step-boundary part of [charge]. *)
Definition adjust (self : t) : t :=
  let roi_target := 1 in
  let value := estimated_value self * prediction_diff self in
  if Qltb 0 (spending self) && Qltb 0 value then
    let value := estimated_value self * prediction_diff self in
    let roi := value / spending self in
    let error_p' := roi - roi_target in
    let error_i' := error_i self + error_p' in
    let error_d' := error_p' - last_error_p self in
    let last_error_p' := error_p' in
    let control := kp self * error_p' + ki self * error_i' + kd self * error_d' in
    let bid := roi_bid self + control in
    let roi_bid' := minimum (maximum bid (roi_bid self - bid_step self))
                            (roi_bid self + bid_step self) in
    let roi_bid' := minimum (maximum roi_bid' (bid_min self)) (bid_max self) in
    Build (budget self) (spending self)
      (rounds_per_step self) (rounds_per_iter self) (bid_step self) roi_bid'
      (prediction_diff self) (estimated_value self)
      (memory self) (value_history self) (estimated_value_history self)
      (bid_min self) (bid_max self) (kp self) (ki self) (kd self)
      error_p' last_error_p' error_i' error_d'
  else
    Build (budget self) (spending self)
      (rounds_per_step self) (rounds_per_iter self) (bid_step self)
      (minimum (bid_max self) (roi_bid self + bid_step self))
      (prediction_diff self) (estimated_value self)
      (memory self) (value_history self) (estimated_value_history self)
      (bid_min self) (bid_max self) (kp self) (ki self) (kd self)
      (error_p self) (last_error_p self) (error_i self) (error_d self).

Definition charge (self : t) (price : Q) (cur_round : Z)
    (estimated_CTR value : Q) : outcome t :=
  let self := accumulate self price estimated_CTR value in
  if (rounds_per_step self =? 0)%Z then Raised ZeroDivisionError self
  else if (cur_round mod rounds_per_step self =? 0)%Z then Returned (adjust self)
  else Returned self.

Definition bid (self : t) (value : Q) (ctx : context) (estimated_CTR : Q) : Q :=
  if Qltb (spending self) (budget self)
  then value * estimated_CTR * roi_bid self
  else 0.

(** The limits that [charge] applies to the multiplier. *)
Definition MPC_limits (self : t) : Q * Q * Q :=
  (bid_min self, bid_max self, bid_step self).

(** [np.multiply] on two one-dimensional arrays: element by element when
    the lengths agree; an array of length 1 is broadcast over the other;
    any other pair of lengths raises [ValueError] ([None]). *)
Definition np_multiply (xs ys : list Q) : option (list Q) :=
  if (length xs =? length ys)%nat
  then Some (map (fun p => fst p * snd p) (combine xs ys))
  else match xs, ys with
       | [x], _ => Some (map (fun y => x * y) ys)
       | _, [y] => Some (map (fun x => x * y) xs)
       | _, _ => None
       end.

(** The exceptions NumPy can raise inside [update]. *)
Inductive np_exn : Type :=
| np_ValueError
| np_IndexError.

(** The two assignments that open [update]. *)
Definition clear_counters (self : t) : t :=
  Build (budget self) 0
    (rounds_per_step self) (rounds_per_iter self) (bid_step self) (roi_bid self)
    (prediction_diff self) 0
    (memory self) (value_history self) (estimated_value_history self)
    (bid_min self) (bid_max self) (kp self) (ki self) (kd self)
    (error_p self) (last_error_p self) (error_i self) (error_d self).

(** The body of [if contexts is not None], given the total [won] of
    [estimated_CTR * value] over the rounds won. *)
Definition record_values (self : t) (won sum_values : Q) : t :=
  let evh := slice_last (memory self) (estimated_value_history self ++ [won]) in
  let vh := slice_last (memory self) (value_history self ++ [sum_values]) in
  let value := Qsum vh in
  let estimated_value' := Qsum evh in
  let diff :=
    if Qltb 1 value && Qltb 1 estimated_value'
    then value / estimated_value'
    else 1 in
  Build (budget self) (spending self)
    (rounds_per_step self) (rounds_per_iter self) (bid_step self) (roi_bid self)
    diff (estimated_value self)
    (memory self) vh evh
    (bid_min self) (bid_max self) (kp self) (ki self) (kd self)
    (error_p self) (last_error_p self) (error_i self) (error_d self).

(** [update].  [contexts] tells whether the argument is not [None].  The
    result is the object after the call and the exception, if one was
    raised; the counters are cleared before NumPy is called. *)
Definition update (self : t) (contexts : bool) (values : list Q)
    (sum_values : Q) (estimated_CTRs : list Q) (won_mask : list bool)
  : t * option np_exn :=
  let self := clear_counters self in
  if contexts then
    match np_multiply estimated_CTRs values with
    | None => (self, Some np_ValueError)
    | Some products =>
        match masked products won_mask with
        | None => (self, Some np_IndexError)
        | Some won => (record_values self (Qsum won) sum_values, None)
        end
    end
  else (self, None).

End MPCBidder.

(** ** The class hierarchy and method lookup *)

Inductive class : Type :=
| cls_Bidder
| cls_TruthfulBidder
| cls_BudgetRistrictedBidder
| cls_TruthfulBudgetRistricctedBidder
| cls_IMPCBudgetBidder
| cls_BidCapBidder
| cls_SPBBidder
| cls_MPCBidder.

Inductive method : Type :=
| m_init | m_update | m_clear_logs | m_bid | m_charge | m_calc_roi_bid | m_reset.

(** The [def]s in the body of each [class] statement.  The [reset] of
    [MPCBidder] is commented out in the source, so the class has none. *)
Definition defines (c : class) (m : method) : bool :=
  match c, m with
  | cls_Bidder, (m_init | m_update | m_clear_logs) => true
  | cls_TruthfulBidder, (m_init | m_bid) => true
  | cls_BudgetRistrictedBidder, (m_init | m_charge | m_update) => true
  | cls_TruthfulBudgetRistricctedBidder, (m_init | m_bid) => true
  | cls_IMPCBudgetBidder,
    (m_init | m_calc_roi_bid | m_charge | m_bid | m_update | m_reset) => true
  | cls_BidCapBidder, m_charge => true
  | cls_SPBBidder, (m_init | m_charge | m_update | m_reset) => true
  | cls_MPCBidder, (m_init | m_charge | m_bid | m_update) => true
  | _, _ => false
  end.

(** Method resolution order: the class, then its chain of base classes. *)
Definition mro (c : class) : list class :=
  match c with
  | cls_Bidder => [cls_Bidder]
  | cls_TruthfulBidder => [cls_TruthfulBidder; cls_Bidder]
  | cls_BudgetRistrictedBidder => [cls_BudgetRistrictedBidder; cls_Bidder]
  | cls_TruthfulBudgetRistricctedBidder =>
      [cls_TruthfulBudgetRistricctedBidder; cls_BudgetRistrictedBidder; cls_Bidder]
  | cls_IMPCBudgetBidder =>
      [cls_IMPCBudgetBidder; cls_BudgetRistrictedBidder; cls_Bidder]
  | cls_BidCapBidder =>
      [cls_BidCapBidder; cls_IMPCBudgetBidder; cls_BudgetRistrictedBidder; cls_Bidder]
  | cls_SPBBidder =>
      [cls_SPBBidder; cls_IMPCBudgetBidder; cls_BudgetRistrictedBidder; cls_Bidder]
  | cls_MPCBidder => [cls_MPCBidder; cls_BudgetRistrictedBidder; cls_Bidder]
  end.

(** Attribute lookup of a method on an instance: the first class of the
    resolution order that defines it; [None] is [AttributeError]. *)
Definition lookup (c : class) (m : method) : option class :=
  find (fun k => defines k m) (mro c).

(** ** Runs of the controllers *)

(** The states a controller object goes through: any sequence of [charge],
    [update] and [reset] calls ([bid] does not change the object).  A call
    that raises leaves the object in the state it had at the [raise]. *)
Module IMPCRun.
Import IMPCBudgetBidder.

Inductive step : t -> t -> Prop :=
| step_charge self price cur_round ctr value :
    step self (state_of (charge self price cur_round ctr value))
| step_update self : step self (update self)
| step_reset self : step self (reset self).

Inductive reachable (fresh : t) : t -> Prop :=
| reach_fresh : reachable fresh fresh
| reach_step self self' :
    reachable fresh self -> step self self' -> reachable fresh self'.

End IMPCRun.

Module BidCapRun.
Import IMPCBudgetBidder.

Inductive step : t -> t -> Prop :=
| step_charge self price cur_round ctr value :
    step self (state_of (BidCapBidder.charge self price cur_round ctr value))
| step_update self : step self (update self)
| step_reset self : step self (reset self).

Inductive reachable (fresh : t) : t -> Prop :=
| reach_fresh : reachable fresh fresh
| reach_step self self' :
    reachable fresh self -> step self self' -> reachable fresh self'.

End BidCapRun.

Module SPBRun.
Import SPBBidder.

Section Fit.
Variable curve_fit : list Q -> list Q -> option (Q * Q).

Inductive step : t -> t -> Prop :=
| step_charge self price cur_round ctr value :
    step self (state_of (charge self price cur_round ctr value))
| step_update self contexts prices sum_values won_mask :
    step self (state_of (update curve_fit self contexts prices sum_values won_mask))
| step_reset self : step self (reset self).

Inductive reachable (fresh : t) : t -> Prop :=
| reach_fresh : reachable fresh fresh
| reach_step self self' :
    reachable fresh self -> step self self' -> reachable fresh self'.
End Fit.

End SPBRun.

(** ** The response curve over the reals *)

Module Curve.
Local Open Scope R_scope.

(** [spend2value(spend, a, b)] *)
Definition spend2value (spend a b : R) : R :=
  (sqrt (b * b + 2 * a * spend) - b) / a.

(** [opt_spend(a, b)], the function of the same name above read over the
    reals. *)
Definition opt_spend (a b : R) : R := (2 - 2 * b) / a.

End Curve.

(** ** The denoise step as the specification words it *)

(** Splits a list into runs: a sample joins the current run when its bid is
    within the relative distance of the first bid of the run, and otherwise
    starts the next run. *)
Fixpoint runs_loop (distance : Q) (samples current : list sample)
  : list (list sample) :=
  match samples with
  | [] =>
      match current with
      | [] => []
      | _ :: _ => [current]
      end
  | s :: rest =>
      match current with
      | [] => runs_loop distance rest [s]
      | c :: _ =>
          if Qltb (s0 s) (s0 c * (1 + distance))
          then runs_loop distance rest (current ++ [s])
          else current :: runs_loop distance rest [s]
      end
  end.

Definition runs (samples : list sample) : list (list sample) :=
  runs_loop (1 # 1000000) samples [].

(** Every run merged into its coordinate-wise mean. *)
Definition aggregate_near_sample_spec (samples : list sample) : list sample :=
  map mean_sample (runs samples).

(** Non-decreasing spend coordinate, from the first element to the last. *)
Definition spend_nondecreasing (l : list sample) : Prop :=
  StronglySorted (fun a b => s1 a <= s1 b) l.

(** The same, by positions: the form the binary search works with. *)
Definition spend_ordered (l : list sample) : Prop :=
  forall i j : nat,
    (i <= j < length l)%nat -> s1 (nth i l (0, 0)) <= s1 (nth j l (0, 0)).

(** ** Bidder and TruthfulBidder *)

Module Bidder.

(** The base class keeps [rng] and the flag [truthful]; [update] and
    [clear_logs] are [pass]. *)
Record t : Type := Build { truthful : bool }.

Definition init : t := {| truthful := false |}.

Definition update (self : t) : t := self.

Definition clear_logs (self : t) (memory : Z) : t := self.

End Bidder.

Module TruthfulBidder.

Definition init : Bidder.t := {| Bidder.truthful := true |}.

Definition bid (self : Bidder.t) (value : Q) (ctx : context) (estimated_CTR : Q) : Q :=
  value * estimated_CTR.

End TruthfulBidder.

(** ** Sequences of calls *)

(** One [charge] call: price, round index, estimated CTR, value. *)
Definition charge_call : Type := (Q * Z * Q * Q)%type.

Definition price_of (c : charge_call) : Q := fst (fst (fst c)).

(** The object after a sequence of [charge] calls on an IMPCBudgetBidder,
    each call starting from the state the previous one left. *)
Fixpoint IMPC_charges (self : IMPCBudgetBidder.t) (calls : list charge_call)
  : IMPCBudgetBidder.t :=
  match calls with
  | [] => self
  | (price, cur_round, ctr, value) :: rest =>
      IMPC_charges
        (state_of (IMPCBudgetBidder.charge self price cur_round ctr value)) rest
  end.

Module MPCRun.
Import MPCBidder.

Inductive step : t -> t -> Prop :=
| step_charge self price cur_round ctr value :
    step self (state_of (charge self price cur_round ctr value))
| step_update self contexts values sum_values estimated_CTRs won_mask :
    step self
      (fst (update self contexts values sum_values estimated_CTRs won_mask)).

Inductive reachable (fresh : t) : t -> Prop :=
| reach_fresh : reachable fresh fresh
| reach_step self self' :
    reachable fresh self -> step self self' -> reachable fresh self'.

End MPCRun.

(** Bid coordinate in ascending order. *)
Definition bid_ascending (l : list sample) : Prop :=
  StronglySorted (fun a b => s0 a <= s0 b) l.

(** ** The solver and IMPCBudgetBidder over binary64 *)

Module Binary64.
Import PrimFloat.
Local Open Scope float_scope.

(** A sample [[bid, spend]] of two Python floats. *)
Definition sample : Type := (float * float)%type.

(** The literal [1e-6]: the binary64 number nearest to it. *)
Definition one_millionth : float := 0x1.0c6f7a0b5ed8dp-20.

(** [np.minimum(x, y)] is [x] when [x < y] or [x] is a NaN, else [y];
    [np.maximum(x, y)] is [x] when [x >= y] or [x] is a NaN, else [y]. *)
Definition minimum (x y : float) : float :=
  if (x <? y) || is_nan x then x else y.
Definition maximum (x y : float) : float :=
  if (y <=? x) || is_nan x then x else y.

(** Python's [<] on two-element lists of floats. *)
Definition sample_ltb (a b : sample) : bool :=
  if fst a =? fst b then snd a <? snd b else fst a <? fst b.

Fixpoint insert_sorted (x : sample) (l : list sample) : list sample :=
  match l with
  | [] => [x]
  | y :: l' => if sample_ltb y x then y :: insert_sorted x l' else x :: l
  end.

Definition sorted (l : list sample) : list sample :=
  fold_right insert_sorted [] l.

Equations? search (result : list sample) (s : sample) (l r : nat) : nat
  by wf (r - l)%nat lt :=
  search result s l r with lt_dec l r => {
    | left _ =>
        let mid := ((l + r) / 2)%nat in
        if snd (nth mid result s) <=? snd s
        then search result s (mid + 1)%nat r
        else search result s l mid;
    | right _ => l }.
Proof.
  all: assert (Hmid : mid = ((l + r) / 2)%nat) by reflexivity;
    clearbody mid; subst mid;
    pose proof (Nat.div_mod_eq (l + r)%nat 2%nat) as Hm;
    pose proof (Nat.mod_upper_bound (l + r)%nat 2%nat ltac:(lia)) as Hb;
    lia.
Qed.

Fixpoint set_at (l : nat) (s : sample) (result : list sample) : list sample :=
  match result, l with
  | [], _ => []
  | _ :: t, O => s :: t
  | x :: t, S l' => x :: set_at l' s t
  end.

Definition increasing_step (result : list sample) (s : sample) : list sample :=
  let l := search result s 0 (length result) in
  if (l =? length result)%nat then result ++ [s] else set_at l s result.

Definition increasing_subsequence (samples : list sample) : list sample :=
  fold_left increasing_step samples [].

Definition liner_solve (x1 y1 x2 y2 x : float) : float :=
  if abs (x1 - x2) <? one_millionth
  then (y1 + y2) / 2
  else y1 + (y2 - y1) * (x - x1) / (x2 - x1).

Fixpoint impc_walk (target bid spend : float) (samples : list sample)
  : option float :=
  match samples with
  | [] => None
  | s :: rest =>
      if snd s <? target
      then impc_walk target (fst s) (snd s) rest
      else Some (liner_solve spend bid (snd s) (fst s) target)
  end.

Record t : Type := Build {
  budget : float;
  spending : float;
  rounds_per_step : Z;
  rounds_per_iter : Z;
  target_step_spending : float;
  bid2spend_history : list sample;
  bid_step : float;
  roi_bid : float;
  step_spending : float;
  memory : Z
}.

Section Mean.

(** [np.mean] on a non-empty tuple of floats.  The order in which NumPy
    adds the numbers is NumPy's own; the solver takes the function as it
    is. *)
Variable np_mean : list float -> float.

Definition mean_sample (current : list sample) : sample :=
  (np_mean (map fst current), np_mean (map snd current)).

Fixpoint aggregate_loop (distance : float) (samples current result : list sample)
  : list sample :=
  match samples with
  | [] =>
      match current with
      | [] => result
      | _ :: _ => result ++ [mean_sample current]
      end
  | s :: rest =>
      match current with
      | [] => aggregate_loop distance rest (current ++ [s]) result
      | c :: _ =>
          if fst s <? fst c * (1 + distance)
          then aggregate_loop distance rest (current ++ [s]) result
          else aggregate_loop distance rest [] (result ++ [mean_sample current])
      end
  end.

Definition aggregate_near_sample (samples : list sample) : list sample :=
  aggregate_loop one_millionth samples [] [].

Definition impc (bid2spend : list sample) (target : float) : float :=
  let samples := sorted bid2spend in
  let samples := aggregate_near_sample samples in
  let samples := increasing_subsequence samples in
  match samples with
  | [] => 1
  | _ :: _ =>
      match impc_walk target 0 0 samples with
      | Some bid => bid
      | None =>
          let last := List.last samples (0, 0) in
          liner_solve 0 0 (snd last) (fst last) target
      end
  end.

Definition calc_roi_bid (self : t) (target_step_spending : float) : float :=
  if step_spending self <? one_millionth
  then roi_bid self + bid_step self
  else
    let bid := impc (bid2spend_history self) target_step_spending in
    minimum (maximum bid (roi_bid self - bid_step self))
            (roi_bid self + bid_step self).

Definition charge (self : t) (price : float) (cur_round : Z)
    (estimated_CTR vlaue : float) : outcome t :=
  let spending' := spending self + price in
  let step_spending' := step_spending self + price in
  let charged :=
    Build (budget self) spending' (rounds_per_step self) (rounds_per_iter self)
      (target_step_spending self) (bid2spend_history self) (bid_step self)
      (roi_bid self) step_spending' (memory self) in
  if (rounds_per_step self =? 0)%Z then Raised ZeroDivisionError charged
  else if (cur_round mod rounds_per_step self =? 0)%Z then
    let history := bid2spend_history self ++ [(roi_bid self, step_spending')] in
    let appended :=
      Build (budget self) spending' (rounds_per_step self) (rounds_per_iter self)
        (target_step_spending self) history (bid_step self)
        (roi_bid self) step_spending' (memory self) in
    Returned
      (Build (budget self) spending' (rounds_per_step self) (rounds_per_iter self)
         (target_step_spending self) (slice_last (memory self) history)
         (bid_step self)
         (calc_roi_bid appended (target_step_spending self))
         0 (memory self))
  else Returned charged.

End Mean.

End Binary64.

(** * Properties *)

(** ** Comparisons, [minimum] and [maximum] *)

Lemma Qltb_true (x y : Q) : Qltb x y = true <-> x < y.
Proof.
  unfold Qltb. rewrite negb_true_iff. split; intros H.
  - apply Qnot_le_lt. intros Hle. apply Qle_bool_iff in Hle. congruence.
  - destruct (Qle_bool y x) eqn:E; [|reflexivity].
    apply Qle_bool_iff in E. lra.
Qed.

Lemma Qltb_false (x y : Q) : Qltb x y = false <-> y <= x.
Proof.
  unfold Qltb. rewrite negb_false_iff. apply Qle_bool_iff.
Qed.

(** Splits on every comparison in the goal and records its meaning. *)
Ltac qcases :=
  repeat match goal with
  | |- context [Qltb ?a ?b] =>
      let E := fresh "E" in
      destruct (Qltb a b) eqn:E;
      [apply Qltb_true in E | apply Qltb_false in E]
  end.

Lemma minimum_le_r (x y : Q) : minimum x y <= y.
Proof. unfold minimum. qcases; lra. Qed.

Lemma minimum_le_l (x y : Q) : minimum x y <= x.
Proof. unfold minimum. qcases; lra. Qed.

Lemma clamp_bounds (bid lo hi : Q) :
  lo <= hi -> lo <= minimum (maximum bid lo) hi <= hi.
Proof. unfold minimum, maximum. intros H. qcases; lra. Qed.

(** The three cases of a clamp to an interval. *)
Lemma clamp_spec (x lo hi : Q) :
  lo <= hi ->
  (x <= lo /\ minimum (maximum x lo) hi = lo)
  \/ (lo <= x <= hi /\ minimum (maximum x lo) hi = x)
  \/ (hi <= x /\ minimum (maximum x lo) hi = hi).
Proof.
  intros H. unfold maximum.
  destruct (Qltb x lo) eqn:E1; [apply Qltb_true in E1 | apply Qltb_false in E1];
    unfold minimum;
    match goal with
    | |- context [Qltb ?a ?b] =>
        destruct (Qltb a b) eqn:E2;
        [apply Qltb_true in E2 | apply Qltb_false in E2]
    end.
  - right; right. split; [lra | reflexivity].
  - left. split; [lra | reflexivity].
  - right; right. split; [lra | reflexivity].
  - right; left. split; [lra | reflexivity].
Qed.

(** ** The curve solver on the two-point history *)

(** C4: the solver applied to the history [(1,10),(2,20)] with target spend
    15 returns exactly 1.5. *)
Theorem impc_two_points : impc [(1, 10); (2, 20)] 15 = 1.5.
Proof. vm_compute. reflexivity. Qed.

(** How the value 1.5 comes about: the denoise step keeps only the first of
    the two samples, and the solver extrapolates from the origin through
    it. *)
Lemma impc_two_points_path :
  increasing_subsequence (aggregate_near_sample (sorted [(1, 10); (2, 20)]))
    = [(1, 10)]
  /\ impc_walk 15 0 0 [(1, 10)] = None
  /\ liner_solve 0 0 10 1 15 = 1.5.
Proof. repeat split; vm_compute; reflexivity. Qed.

(** ** The denoise step *)

Lemma runs_loop_concat (distance : Q) (samples current : list sample) :
  concat (runs_loop distance samples current) = current ++ samples.
Proof.
  revert current. induction samples as [|s rest IH]; intros current.
  - destruct current; simpl; rewrite ?app_nil_r; reflexivity.
  - destruct current as [|c cur]; simpl.
    + apply IH.
    + destruct (Qltb (s0 s) (s0 c * (1 + distance))).
      * rewrite IH. simpl. rewrite <- app_assoc. reflexivity.
      * simpl. rewrite IH. reflexivity.
Qed.

(** The runs of the specification are a partition of the input: put end to
    end they give the input back, so no sample is lost and none is used
    twice. *)
Lemma runs_partition (samples : list sample) : concat (runs samples) = samples.
Proof. apply (runs_loop_concat _ samples []). Qed.

(** C1: on the ascending input [(1,10),(2,20),(3,30)] the three bids are far
    apart, so the runs are the three singletons and the merged output should
    be the input itself; [aggregate_near_sample] returns only
    [(1,10),(3,30)]: the sample (2,20), which ends the first run, is put in
    no run and contributes to no output sample. *)
Theorem aggregate_near_sample_drops_sample :
  let samples := [(1, 10); (2, 20); (3, 30)] in
  sorted samples = samples
  /\ runs samples = [[(1, 10)]; [(2, 20)]; [(3, 30)]]
  /\ aggregate_near_sample_spec samples = [(1, 10); (2, 20); (3, 30)]
  /\ aggregate_near_sample samples = [(1, 10); (3, 30)]
  /\ ~ In (2, 20) (aggregate_near_sample samples).
Proof.
  repeat split; try (vm_compute; reflexivity).
  vm_compute. intros [H | [H | []]]; discriminate H.
Qed.

(** ** IMPCBudgetBidder: how far one [charge] moves [roi_bid] *)

Section IMPCCharge.
Import IMPCBudgetBidder.

Lemma calc_roi_bid_bounds (self : t) (target : Q) :
  0 <= bid_step self ->
  roi_bid self - bid_step self <= calc_roi_bid self target
    <= roi_bid self + bid_step self.
Proof.
  intros Hs. unfold calc_roi_bid.
  destruct (Qltb (step_spending self) (1 # 1000000)).
  - lra.
  - apply clamp_bounds. lra.
Qed.

Lemma charge_roi_bid (self : t) (price : Q) (cur_round : Z) (ctr value : Q) :
  roi_bid (state_of (charge self price cur_round ctr value))
  = if (rounds_per_step self =? 0)%Z then roi_bid self
    else if (cur_round mod rounds_per_step self =? 0)%Z
         then calc_roi_bid (at_boundary self price) (target_step_spending self)
         else roi_bid self.
Proof.
  unfold charge. simpl.
  destruct (rounds_per_step self =? 0)%Z; [reflexivity|].
  destruct (cur_round mod rounds_per_step self =? 0)%Z; reflexivity.
Qed.

Lemma charge_spending (self : t) (price : Q) (cur_round : Z) (ctr value : Q) :
  spending (state_of (charge self price cur_round ctr value))
  = spending self + price.
Proof.
  unfold charge. simpl.
  destruct (rounds_per_step self =? 0)%Z; [reflexivity|].
  destruct (cur_round mod rounds_per_step self =? 0)%Z; reflexivity.
Qed.

End IMPCCharge.

Lemma charge_roi_bid_interval
    (self : IMPCBudgetBidder.t) (price : Q) (cur_round : Z) (ctr value : Q) :
  0 <= IMPCBudgetBidder.bid_step self ->
  IMPCBudgetBidder.roi_bid self - IMPCBudgetBidder.bid_step self
  <= IMPCBudgetBidder.roi_bid
       (state_of (IMPCBudgetBidder.charge self price cur_round ctr value))
  <= IMPCBudgetBidder.roi_bid self + IMPCBudgetBidder.bid_step self.
Proof.
  intros Hs. rewrite charge_roi_bid.
  pose proof (calc_roi_bid_bounds (IMPCBudgetBidder.at_boundary self price)
                (IMPCBudgetBidder.target_step_spending self) Hs) as Hb.
  simpl in Hb.
  destruct (IMPCBudgetBidder.rounds_per_step self =? 0)%Z; [lra|].
  destruct (cur_round mod IMPCBudgetBidder.rounds_per_step self =? 0)%Z;
    [exact Hb | lra].
Qed.

(** C6 (as the code has it): for every state of IMPCBudgetBidder with
    [bid_step >= 0] and every [charge] call, [roi_bid] after the call lies
    between [roi_bid - bid_step] and [roi_bid + bid_step], the two bounds
    as the code computes them from the value before the call.  Off a step
    boundary (and when the call raises) [roi_bid] is unchanged; at a step
    boundary the exploration branch sets it to exactly the computed
    [roi_bid + bid_step], and the solver branch to the solver's bid clamped
    to the two computed bounds. *)
Theorem IMPC_charge_roi_bid_interval
    (self : IMPCBudgetBidder.t) (price : Q) (cur_round : Z) (ctr value : Q) :
  0 <= IMPCBudgetBidder.bid_step self ->
  let self' := state_of (IMPCBudgetBidder.charge self price cur_round ctr value) in
  let roi := IMPCBudgetBidder.roi_bid self in
  let roi' := IMPCBudgetBidder.roi_bid self' in
  let step := IMPCBudgetBidder.bid_step self in
  roi - step <= roi' <= roi + step
  /\ (IMPCBudgetBidder.rounds_per_step self = 0%Z
      \/ (cur_round mod IMPCBudgetBidder.rounds_per_step self <> 0)%Z ->
      roi' = roi)
  /\ (IMPCBudgetBidder.rounds_per_step self <> 0%Z ->
      (cur_round mod IMPCBudgetBidder.rounds_per_step self = 0)%Z ->
      (IMPCBudgetBidder.step_spending self + price < 1 # 1000000 ->
         roi' = roi + step)
      /\ (1 # 1000000 <= IMPCBudgetBidder.step_spending self + price ->
         roi' = minimum
                  (maximum
                     (impc (IMPCBudgetBidder.bid2spend_history self
                              ++ [(roi, IMPCBudgetBidder.step_spending self + price)])
                           (IMPCBudgetBidder.target_step_spending self))
                     (roi - step))
                  (roi + step))).
Proof.
  intros Hs self' roi roi' step. subst self' roi roi' step.
  split; [apply charge_roi_bid_interval; exact Hs|].
  rewrite charge_roi_bid. split.
  - intros [Hz | Hnb].
    + apply Z.eqb_eq in Hz. rewrite Hz. reflexivity.
    + destruct (IMPCBudgetBidder.rounds_per_step self =? 0)%Z; [reflexivity|].
      apply Z.eqb_neq in Hnb. rewrite Hnb. reflexivity.
  - intros Hrps Hmod.
    apply Z.eqb_neq in Hrps. rewrite Hrps.
    apply Z.eqb_eq in Hmod. rewrite Hmod.
    unfold IMPCBudgetBidder.calc_roi_bid. simpl. split.
    + intros Hlt. apply Qltb_true in Hlt. rewrite Hlt. reflexivity.
    + intros Hge. apply Qltb_false in Hge. rewrite Hge. reflexivity.
Qed.

Lemma IMPC_charge_roi_bid_interval_witness :
  let self := IMPCBudgetBidder.Build 10 0 2 4 5 [] (1 # 10) 1 0 3 in
  0 <= IMPCBudgetBidder.bid_step self
  /\ IMPCBudgetBidder.roi_bid self - IMPCBudgetBidder.bid_step self
     <= IMPCBudgetBidder.roi_bid
          (state_of (IMPCBudgetBidder.charge self 5 2 1 1))
     <= IMPCBudgetBidder.roi_bid self + IMPCBudgetBidder.bid_step self.
Proof.
  intros self.
  assert (H : 0 <= IMPCBudgetBidder.bid_step self) by (vm_compute; discriminate).
  split; [exact H|].
  exact (proj1 (IMPC_charge_roi_bid_interval self 5 2 1 1 H)).
Defined.

Section Binary64Step.
Import PrimFloat.
Local Open Scope float_scope.

(** C6 as stated fails on the running program.  A controller as
    [__init__] leaves it (budget 10, 4 rounds per iteration, 2 per step,
    [bid_step] 0.1, [roi_bid] 1.0, no spend) is charged 0 at round 2: the
    exploration branch computes 1.0 + 0.1 in binary64 and [roi_bid] becomes
    1.1000000000000001, at distance 0.10000000000000009 from the old value,
    which is above [bid_step].  With a [bid_step] of -0.5 the same call
    gives 0.5, at distance 0.5, also above [bid_step].  Neither result
    depends on [np.mean]. *)
Lemma IMPC_charge_step_exceeded :
  let tenth := 0x1.999999999999ap-4 in
  let fresh := Binary64.Build 10 0 2 4 5 [] tenth 1 0 3 in
  let downhill := Binary64.Build 10 0 2 4 5 [] (-0.5) 1 0 3 in
  let after := fun self np_mean =>
    Binary64.roi_bid (state_of (Binary64.charge np_mean self 0 2 1 1)) in
  after fresh = (fun _ => 0x1.199999999999ap+0)
  /\ abs (0x1.199999999999ap+0 - Binary64.roi_bid fresh) = 0x1.99999999999ap-4
  /\ (Binary64.bid_step fresh <? 0x1.99999999999ap-4) = true
  /\ after downhill = (fun _ => 0.5)
  /\ (Binary64.bid_step downhill <? abs (0.5 - Binary64.roi_bid downhill)) = true.
Proof.
  cbv zeta. repeat split; vm_compute; reflexivity.
Qed.

End Binary64Step.

(** ** The budget gate of [bid] *)

Lemma IMPC_bid_gate (self : IMPCBudgetBidder.t) (value : Q) (ctx : context) (ctr : Q) :
  (IMPCBudgetBidder.spending self < IMPCBudgetBidder.budget self ->
   IMPCBudgetBidder.bid self value ctx ctr
   = value * ctr * IMPCBudgetBidder.roi_bid self)
  /\ (IMPCBudgetBidder.budget self <= IMPCBudgetBidder.spending self ->
      IMPCBudgetBidder.bid self value ctx ctr = 0).
Proof.
  unfold IMPCBudgetBidder.bid. split; intros H;
    [apply Qltb_true in H | apply Qltb_false in H]; rewrite H; reflexivity.
Qed.

Lemma MPC_bid_gate (self : MPCBidder.t) (value : Q) (ctx : context) (ctr : Q) :
  (MPCBidder.spending self < MPCBidder.budget self ->
   MPCBidder.bid self value ctx ctr = value * ctr * MPCBidder.roi_bid self)
  /\ (MPCBidder.budget self <= MPCBidder.spending self ->
      MPCBidder.bid self value ctx ctr = 0).
Proof.
  unfold MPCBidder.bid. split; intros H;
    [apply Qltb_true in H | apply Qltb_false in H]; rewrite H; reflexivity.
Qed.

(** C7: for every state of IMPCBudgetBidder, of its subclasses BidCapBidder
    (same state and inherited [bid]) and SPBBidder (inherited [bid] on the
    parent's attributes), and of MPCBidder, and for all inputs,
    [bid(value, context, estimated_CTR)] returns
    [value * estimated_CTR * roi_bid] when [spending < budget] and 0 when
    [spending >= budget]. *)
Theorem bid_budget_gate (value : Q) (ctx : context) (estimated_CTR : Q) :
  (forall self : IMPCBudgetBidder.t,
      (IMPCBudgetBidder.spending self < IMPCBudgetBidder.budget self ->
       IMPCBudgetBidder.bid self value ctx estimated_CTR
       = value * estimated_CTR * IMPCBudgetBidder.roi_bid self)
      /\ (IMPCBudgetBidder.budget self <= IMPCBudgetBidder.spending self ->
          IMPCBudgetBidder.bid self value ctx estimated_CTR = 0))
  /\ (forall self : SPBBidder.t,
      let b := SPBBidder.base self in
      (IMPCBudgetBidder.spending b < IMPCBudgetBidder.budget b ->
       SPBBidder.bid self value ctx estimated_CTR
       = value * estimated_CTR * IMPCBudgetBidder.roi_bid b)
      /\ (IMPCBudgetBidder.budget b <= IMPCBudgetBidder.spending b ->
          SPBBidder.bid self value ctx estimated_CTR = 0))
  /\ (forall self : MPCBidder.t,
      (MPCBidder.spending self < MPCBidder.budget self ->
       MPCBidder.bid self value ctx estimated_CTR
       = value * estimated_CTR * MPCBidder.roi_bid self)
      /\ (MPCBidder.budget self <= MPCBidder.spending self ->
          MPCBidder.bid self value ctx estimated_CTR = 0)).
Proof.
  split; [|split]; intros self.
  - apply IMPC_bid_gate.
  - apply (IMPC_bid_gate (SPBBidder.base self)).
  - apply MPC_bid_gate.
Qed.

Lemma bid_budget_gate_witness :
  let open := IMPCBudgetBidder.Build 10 4 2 4 5 [] (1 # 10) (3 # 2) 0 3 in
  let spent := IMPCBudgetBidder.Build 10 10 2 4 5 [] (1 # 10) (3 # 2) 0 3 in
  IMPCBudgetBidder.bid open 2 [] (1 # 2) = 2 * (1 # 2) * (3 # 2)
  /\ IMPCBudgetBidder.bid spent 2 [] (1 # 2) = 0.
Proof.
  intros open spent. split.
  - apply (proj1 (bid_budget_gate 2 [] (1 # 2))). reflexivity.
  - apply (proj1 (bid_budget_gate 2 [] (1 # 2))). vm_compute. discriminate.
Defined.

(** ** [charge] always adds the price to [spending] *)

Lemma SPB_charge_spending
    (self : SPBBidder.t) (price : Q) (cur_round : Z) (ctr value : Q) :
  IMPCBudgetBidder.spending
    (SPBBidder.base (state_of (SPBBidder.charge self price cur_round ctr value)))
  = IMPCBudgetBidder.spending (SPBBidder.base self) + price.
Proof.
  unfold SPBBidder.charge. simpl.
  destruct (IMPCBudgetBidder.rounds_per_step (SPBBidder.base self) =? 0)%Z;
    [reflexivity|].
  destruct (cur_round mod _ =? 0)%Z; [|reflexivity].
  destruct (Qltb 0 (SPBBidder.optimal_budget self)); [reflexivity|].
  destruct (IMPCBudgetBidder.rounds_per_iter (SPBBidder.base self) =? 0)%Z;
    reflexivity.
Qed.

Lemma BidCap_charge_spending
    (self : IMPCBudgetBidder.t) (price : Q) (cur_round : Z) (ctr value : Q) :
  IMPCBudgetBidder.spending
    (state_of (BidCapBidder.charge self price cur_round ctr value))
  = IMPCBudgetBidder.spending self + price.
Proof.
  rewrite <- (charge_spending self price cur_round ctr value).
  unfold BidCapBidder.charge.
  destruct (IMPCBudgetBidder.charge self price cur_round ctr value); reflexivity.
Qed.

Lemma MPC_charge_spending
    (self : MPCBidder.t) (price : Q) (cur_round : Z) (ctr value : Q) :
  0 < price ->
  MPCBidder.spending (state_of (MPCBidder.charge self price cur_round ctr value))
  = MPCBidder.spending self + price.
Proof.
  intros Hp. apply Qltb_true in Hp.
  unfold MPCBidder.charge, MPCBidder.accumulate. rewrite Hp. simpl.
  destruct (MPCBidder.rounds_per_step self =? 0)%Z; [reflexivity|].
  destruct (cur_round mod _ =? 0)%Z; [|reflexivity].
  unfold MPCBidder.adjust. simpl.
  destruct (Qltb 0 (MPCBidder.spending self + price) && _); reflexivity.
Qed.

(** C10: for every budget-restricted controller, [charge] with a price
    above 0 adds the price to [spending] whatever the state, also when
    [spending] is already at or above [budget]: in such a state [bid]
    returns 0 and a further charge still takes [spending] strictly above
    [budget].  No [charge] caps the amount or rejects the call. *)
Theorem charge_adds_price_unconditionally
    (price : Q) (cur_round : Z) (estimated_CTR value : Q) :
  0 < price ->
  (forall self : BudgetRistrictedBidder.t,
      let self' := BudgetRistrictedBidder.charge self price cur_round
                     estimated_CTR value in
      BudgetRistrictedBidder.spending self'
      = BudgetRistrictedBidder.spending self + price
      /\ BudgetRistrictedBidder.budget self' = BudgetRistrictedBidder.budget self
      /\ (BudgetRistrictedBidder.budget self <= BudgetRistrictedBidder.spending self ->
          TruthfulBudgetRistricctedBidder.bid self value [] estimated_CTR = 0
          /\ BudgetRistrictedBidder.budget self'
             < BudgetRistrictedBidder.spending self'))
  /\ (forall self : IMPCBudgetBidder.t,
      let self' := state_of (IMPCBudgetBidder.charge self price cur_round
                               estimated_CTR value) in
      IMPCBudgetBidder.spending self' = IMPCBudgetBidder.spending self + price
      /\ IMPCBudgetBidder.budget self' = IMPCBudgetBidder.budget self
      /\ (IMPCBudgetBidder.budget self <= IMPCBudgetBidder.spending self ->
          IMPCBudgetBidder.bid self value [] estimated_CTR = 0
          /\ IMPCBudgetBidder.budget self' < IMPCBudgetBidder.spending self'))
  /\ (forall self : IMPCBudgetBidder.t,
      let self' := state_of (BidCapBidder.charge self price cur_round
                               estimated_CTR value) in
      IMPCBudgetBidder.spending self' = IMPCBudgetBidder.spending self + price
      /\ IMPCBudgetBidder.budget self' = IMPCBudgetBidder.budget self
      /\ (IMPCBudgetBidder.budget self <= IMPCBudgetBidder.spending self ->
          IMPCBudgetBidder.bid self value [] estimated_CTR = 0
          /\ IMPCBudgetBidder.budget self' < IMPCBudgetBidder.spending self'))
  /\ (forall self : SPBBidder.t,
      let self' := state_of (SPBBidder.charge self price cur_round
                               estimated_CTR value) in
      let b := SPBBidder.base self in
      let b' := SPBBidder.base self' in
      IMPCBudgetBidder.spending b' = IMPCBudgetBidder.spending b + price
      /\ IMPCBudgetBidder.budget b' = IMPCBudgetBidder.budget b
      /\ (IMPCBudgetBidder.budget b <= IMPCBudgetBidder.spending b ->
          SPBBidder.bid self value [] estimated_CTR = 0
          /\ IMPCBudgetBidder.budget b' < IMPCBudgetBidder.spending b'))
  /\ (forall self : MPCBidder.t,
      let self' := state_of (MPCBidder.charge self price cur_round
                               estimated_CTR value) in
      MPCBidder.spending self' = MPCBidder.spending self + price
      /\ MPCBidder.budget self' = MPCBidder.budget self
      /\ (MPCBidder.budget self <= MPCBidder.spending self ->
          MPCBidder.bid self value [] estimated_CTR = 0
          /\ MPCBidder.budget self' < MPCBidder.spending self')).
Proof.
  intros Hp.
  pose proof (fun self => IMPC_bid_gate self value [] estimated_CTR) as Himpc.
  pose proof (fun self => IMPC_bid_gate (SPBBidder.base self) value [] estimated_CTR)
    as Hspb.
  pose proof (fun self => MPC_bid_gate self value [] estimated_CTR) as Hmpc.
  split; [|split; [|split; [|split]]]; intros self; cbv zeta.
  - split; [reflexivity|]. split; [reflexivity|]. intros Hb. split.
    + unfold TruthfulBudgetRistricctedBidder.bid.
      apply Qltb_false in Hb. rewrite Hb. reflexivity.
    + simpl. lra.
  - assert (Hbud : IMPCBudgetBidder.budget
                     (state_of (IMPCBudgetBidder.charge self price cur_round
                                  estimated_CTR value))
                   = IMPCBudgetBidder.budget self).
    { unfold IMPCBudgetBidder.charge. simpl.
      destruct (IMPCBudgetBidder.rounds_per_step self =? 0)%Z; [reflexivity|].
      destruct (cur_round mod _ =? 0)%Z; reflexivity. }
    rewrite charge_spending, Hbud.
    split; [reflexivity|]. split; [reflexivity|]. intros Hb. split.
    + apply (proj2 (Himpc self)). exact Hb.
    + lra.
  - assert (Hbud : IMPCBudgetBidder.budget
                     (state_of (BidCapBidder.charge self price cur_round
                                  estimated_CTR value))
                   = IMPCBudgetBidder.budget self).
    { unfold BidCapBidder.charge, IMPCBudgetBidder.charge. simpl.
      destruct (IMPCBudgetBidder.rounds_per_step self =? 0)%Z; [reflexivity|].
      destruct (cur_round mod _ =? 0)%Z; reflexivity. }
    rewrite BidCap_charge_spending, Hbud.
    split; [reflexivity|]. split; [reflexivity|]. intros Hb. split.
    + apply (proj2 (Himpc self)). exact Hb.
    + lra.
  - assert (Hbud : IMPCBudgetBidder.budget
                     (SPBBidder.base
                        (state_of (SPBBidder.charge self price cur_round
                                     estimated_CTR value)))
                   = IMPCBudgetBidder.budget (SPBBidder.base self)).
    { unfold SPBBidder.charge. simpl.
      destruct (IMPCBudgetBidder.rounds_per_step (SPBBidder.base self) =? 0)%Z;
        [reflexivity|].
      destruct (cur_round mod _ =? 0)%Z; [|reflexivity].
      destruct (Qltb 0 (SPBBidder.optimal_budget self)); [reflexivity|].
      destruct (IMPCBudgetBidder.rounds_per_iter (SPBBidder.base self) =? 0)%Z;
        reflexivity. }
    rewrite SPB_charge_spending, Hbud.
    split; [reflexivity|]. split; [reflexivity|]. intros Hb. split.
    + apply (proj2 (Hspb self)). exact Hb.
    + lra.
  - assert (Hbud : MPCBidder.budget
                     (state_of (MPCBidder.charge self price cur_round
                                  estimated_CTR value))
                   = MPCBidder.budget self).
    { unfold MPCBidder.charge, MPCBidder.accumulate.
      destruct (Qltb 0 price); simpl;
        (destruct (MPCBidder.rounds_per_step self =? 0)%Z; [reflexivity|]);
        (destruct (cur_round mod _ =? 0)%Z; [|reflexivity]);
        unfold MPCBidder.adjust; simpl;
        match goal with |- context [if ?c then _ else _] => destruct c end;
        reflexivity. }
    rewrite (MPC_charge_spending self price cur_round estimated_CTR value Hp), Hbud.
    split; [reflexivity|]. split; [reflexivity|]. intros Hb. split.
    + apply (proj2 (Hmpc self)). exact Hb.
    + lra.
Qed.

Lemma charge_adds_price_unconditionally_witness :
  let self := IMPCBudgetBidder.Build 10 10 2 4 5 [] (1 # 10) 1 0 3 in
  0 < 3
  /\ IMPCBudgetBidder.spending (state_of (IMPCBudgetBidder.charge self 3 1 1 1))
     = 10 + 3
  /\ IMPCBudgetBidder.budget self
     < IMPCBudgetBidder.spending (state_of (IMPCBudgetBidder.charge self 3 1 1 1)).
Proof.
  intros self.
  assert (Hp : 0 < 3) by reflexivity.
  destruct (charge_adds_price_unconditionally 3 1 1 1 Hp) as (_ & Himpc & _).
  destruct (Himpc self) as (Hs & _ & Hover).
  split; [exact Hp|]. split; [exact Hs|].
  apply Hover. vm_compute. discriminate.
Defined.

(** ** BidCapBidder: the multiplier never exceeds 1 *)

Lemma BidCap_charge_roi_bid
    (self : IMPCBudgetBidder.t) (price : Q) (cur_round : Z) (ctr value : Q) :
  match BidCapBidder.charge self price cur_round ctr value with
  | Returned self' => IMPCBudgetBidder.roi_bid self' <= 1
  | Raised _ self' => IMPCBudgetBidder.roi_bid self' = IMPCBudgetBidder.roi_bid self
  end.
Proof.
  unfold BidCapBidder.charge, IMPCBudgetBidder.charge. simpl.
  destruct (IMPCBudgetBidder.rounds_per_step self =? 0)%Z; [reflexivity|].
  destruct (cur_round mod _ =? 0)%Z; simpl; apply minimum_le_r.
Qed.

Lemma BidCap_step_capped (self self' : IMPCBudgetBidder.t) :
  BidCapRun.step self self' ->
  IMPCBudgetBidder.roi_bid self <= 1 -> IMPCBudgetBidder.roi_bid self' <= 1.
Proof.
  intros Hstep Hinv. inversion Hstep; subst; clear Hstep.
  - pose proof (BidCap_charge_roi_bid self price cur_round ctr value) as H.
    destruct (BidCapBidder.charge self price cur_round ctr value); simpl.
    + exact H.
    + rewrite H. exact Hinv.
  - exact Hinv.
  - simpl. lra.
Qed.

Lemma capped_bid_le (self : IMPCBudgetBidder.t) (value : Q) (ctx : context) (ctr : Q) :
  IMPCBudgetBidder.roi_bid self <= 1 -> 0 <= value -> 0 <= ctr ->
  IMPCBudgetBidder.bid self value ctx ctr <= value * ctr.
Proof.
  intros Hroi Hv Hc.
  assert (Hvc : 0 <= value * ctr) by (apply Qmult_le_0_compat; assumption).
  unfold IMPCBudgetBidder.bid.
  destruct (Qltb (IMPCBudgetBidder.spending self) (IMPCBudgetBidder.budget self)).
  - set (p := value * ctr) in *.
    assert (H : 0 <= p * (1 - IMPCBudgetBidder.roi_bid self))
      by (apply Qmult_le_0_compat; lra).
    lra.
  - exact Hvc.
Qed.

(** C9: for BidCapBidder, [roi_bid] is at most 1 after construction, after
    every [charge] call that returns, and in every state the controller can
    reach by [charge], [update] and [reset] calls; in every such state the
    bid submitted for a value and an estimated CTR that are not negative is
    at most [value * estimated_CTR]. *)
Theorem BidCap_roi_bid_never_exceeds_one
    (budget : Q) (rounds_per_iter rounds_per_step : Z) (bid_step : Q) (memory : Z)
    (fresh self : IMPCBudgetBidder.t) :
  IMPCBudgetBidder.init budget rounds_per_iter rounds_per_step bid_step memory
    = Ok fresh ->
  BidCapRun.reachable fresh self ->
  IMPCBudgetBidder.roi_bid fresh == 1
  /\ IMPCBudgetBidder.roi_bid self <= 1
  /\ (forall price cur_round ctr value self',
         BidCapBidder.charge self price cur_round ctr value = Returned self' ->
         IMPCBudgetBidder.roi_bid self' <= 1)
  /\ (forall value ctx estimated_CTR,
         0 <= value -> 0 <= estimated_CTR ->
         IMPCBudgetBidder.bid self value ctx estimated_CTR <= value * estimated_CTR).
Proof.
  intros Hinit Hreach.
  assert (Hfresh : IMPCBudgetBidder.roi_bid fresh = 1).
  { unfold IMPCBudgetBidder.init in Hinit.
    destruct (rounds_per_iter =? 0)%Z; [discriminate|].
    injection Hinit as <-. reflexivity. }
  assert (Hinv : IMPCBudgetBidder.roi_bid self <= 1).
  { induction Hreach as [|self self' _ IH Hstep].
    - rewrite Hfresh. lra.
    - exact (BidCap_step_capped self self' Hstep IH). }
  split; [rewrite Hfresh; reflexivity|].
  split; [exact Hinv|]. split.
  - intros price cur_round ctr value self' Hret.
    pose proof (BidCap_charge_roi_bid self price cur_round ctr value) as H.
    rewrite Hret in H. exact H.
  - intros value ctx ctr Hv Hc. apply capped_bid_le; assumption.
Qed.

Lemma BidCap_roi_bid_never_exceeds_one_witness :
  let fresh := IMPCBudgetBidder.Build 10 0 2 4 (20 # 4) [] (1 # 10) 1 0 3 in
  let self := state_of (BidCapBidder.charge fresh 0 2 1 1) in
  IMPCBudgetBidder.init 10 4 2 (1 # 10) 3 = Ok fresh
  /\ BidCapRun.reachable fresh self
  /\ IMPCBudgetBidder.roi_bid self <= 1
  /\ IMPCBudgetBidder.bid self 2 [] (1 # 2) <= 2 * (1 # 2).
Proof.
  intros fresh self.
  assert (Hinit : IMPCBudgetBidder.init 10 4 2 (1 # 10) 3 = Ok fresh)
    by reflexivity.
  assert (Hreach : BidCapRun.reachable fresh self).
  { eapply BidCapRun.reach_step; [apply BidCapRun.reach_fresh|].
    apply BidCapRun.step_charge. }
  destruct (BidCap_roi_bid_never_exceeds_one 10 4 2 (1 # 10) 3 fresh self
              Hinit Hreach) as (_ & Hroi & _ & Hbid).
  split; [exact Hinit|]. split; [exact Hreach|]. split; [exact Hroi|].
  apply Hbid; vm_compute; discriminate.
Defined.

(** ** SPBBidder.update: the optimal budget *)

Lemma masked_same_length (xs : list Q) (mask : list bool) :
  length xs = length mask -> exists won, masked xs mask = Some won.
Proof.
  revert mask. induction xs as [|x xs IH]; intros [|m mask] Hlen;
    try discriminate Hlen.
  - exists []. reflexivity.
  - injection Hlen as Hlen. destruct (IH mask Hlen) as [won Hwon].
    simpl. rewrite Hwon. eexists. reflexivity.
Qed.

Section SPBUpdate.
Import SPBBidder.
Variable curve_fit : list Q -> list Q -> option (Q * Q).

Lemma record_iteration_returns (self : t) (contexts : bool) (prices : list Q)
    (sum_values : Q) (won_mask : list bool) :
  (contexts = true -> length prices = length won_mask) ->
  exists extended,
    record_iteration self contexts prices sum_values won_mask = Some extended
    /\ base extended = base self.
Proof.
  intros Hlen. unfold record_iteration. destruct contexts.
  - destruct (masked_same_length prices won_mask (Hlen eq_refl)) as [won Hwon].
    rewrite Hwon. eexists. split; reflexivity.
  - exists self. split; reflexivity.
Qed.

Lemma refit_keeps (self : t) :
  spend_history (refit curve_fit self) = spend_history self
  /\ value_history (refit curve_fit self) = value_history self
  /\ IMPCBudgetBidder.budget (base (refit curve_fit self))
     = IMPCBudgetBidder.budget (base self).
Proof.
  unfold refit.
  destruct (if (1 <? length (spend_history self))%nat
            then fit_model curve_fit (spend_history self) (value_history self)
            else (false, 1, 1)) as [[ready a] b].
  destruct ready; repeat split.
Qed.

Lemma refit_optimal_budget (self : t) :
  (((length (spend_history self) <= 1)%nat
    \/ curve_fit (spend_history self) (value_history self) = None)
   /\ optimal_budget (refit curve_fit self) = -1)
  \/ ((1 < length (spend_history self))%nat
      /\ exists a b,
          curve_fit (spend_history self) (value_history self) = Some (a, b)
          /\ optimal_budget (refit curve_fit self)
             = minimum (opt_spend a b) (IMPCBudgetBidder.budget (base self))).
Proof.
  unfold refit, fit_model.
  destruct (1 <? length (spend_history self))%nat eqn:Hlen.
  - apply Nat.ltb_lt in Hlen.
    destruct (curve_fit (spend_history self) (value_history self))
      as [[a b]|] eqn:Hfit; simpl.
    + right. split; [exact Hlen|]. exists a, b. split; reflexivity.
    + left. split; [right; reflexivity|reflexivity].
  - apply Nat.ltb_ge in Hlen. simpl.
    left. split; [left; exact Hlen|reflexivity].
Qed.

End SPBUpdate.

(** C8: every [SPBBidder.update] call whose [prices] and [won_mask] have the
    same length (or whose [contexts] is [None]) returns, and after it
    [optimal_budget] is -1 when the spend history has fewer than 2 points or
    the curve fit fails, and is [min(opt_spend(a, b), budget)] for the
    fitted [a], [b] otherwise; whenever [optimal_budget] is positive it does
    not exceed [budget]. *)
Theorem SPB_update_optimal_budget
    (curve_fit : list Q -> list Q -> option (Q * Q))
    (self : SPBBidder.t) (contexts : bool) (prices : list Q) (sum_values : Q)
    (won_mask : list bool) :
  (contexts = true -> length prices = length won_mask) ->
  exists self',
    SPBBidder.update curve_fit self contexts prices sum_values won_mask
      = Returned self'
    /\ IMPCBudgetBidder.budget (SPBBidder.base self')
       = IMPCBudgetBidder.budget (SPBBidder.base self)
    /\ ((((length (SPBBidder.spend_history self') <= 1)%nat
          \/ curve_fit (SPBBidder.spend_history self')
               (SPBBidder.value_history self') = None)
         /\ SPBBidder.optimal_budget self' = -1)
        \/ ((1 < length (SPBBidder.spend_history self'))%nat
            /\ exists a b,
                curve_fit (SPBBidder.spend_history self')
                  (SPBBidder.value_history self') = Some (a, b)
                /\ SPBBidder.optimal_budget self'
                   = minimum (opt_spend a b)
                       (IMPCBudgetBidder.budget (SPBBidder.base self'))))
    /\ (0 < SPBBidder.optimal_budget self' ->
        SPBBidder.optimal_budget self'
        <= IMPCBudgetBidder.budget (SPBBidder.base self')).
Proof.
  intros Hlen.
  destruct (record_iteration_returns self contexts prices sum_values won_mask Hlen)
    as (extended & Hext & Hbase).
  exists (SPBBidder.refit curve_fit extended).
  unfold SPBBidder.update. rewrite Hext.
  destruct (refit_keeps curve_fit extended) as (Hsh & Hvh & Hbud).
  pose proof (refit_optimal_budget curve_fit extended) as Hopt.
  rewrite Hsh, Hvh, Hbud. rewrite Hbase in *.
  split; [reflexivity|]. split; [reflexivity|]. split; [exact Hopt|].
  intros Hpos. destruct Hopt as [[_ Hm] | [_ (a & b & _ & Hm)]]; rewrite Hm in *.
  - exfalso. revert Hpos. vm_compute. discriminate.
  - apply minimum_le_r.
Qed.

Lemma SPB_update_optimal_budget_witness :
  let fit := fun (_ _ : list Q) => Some (1, 1 # 2) in
  let self := SPBBidder.Build
                (IMPCBudgetBidder.Build 10 7 2 4 (20 # 4) [] (1 # 10) 1 0 3)
                5 2 (-1) [3] [4] in
  exists self',
    SPBBidder.update fit self true [1; 2] 6 [true; false] = Returned self'
    /\ (0 < SPBBidder.optimal_budget self' ->
        SPBBidder.optimal_budget self'
        <= IMPCBudgetBidder.budget (SPBBidder.base self')).
Proof.
  intros fit self.
  destruct (SPB_update_optimal_budget fit self true [1; 2] 6 [true; false]
              (fun _ => eq_refl)) as (self' & Hret & _ & _ & Hle).
  exists self'. split; [exact Hret | exact Hle].
Defined.

(** ** The monotonic envelope *)

Section Envelope.

Local Notation "'at_' l i" := (s1 (nth i l (0, 0))) (at level 10, l at level 9, i at level 9).

Lemma mid_bounds (l r : nat) :
  (l < r)%nat -> (l <= (l + r) / 2 < r)%nat.
Proof.
  intros H.
  pose proof (Nat.div_mod_eq (l + r) 2) as Hm.
  pose proof (Nat.mod_upper_bound (l + r) 2 ltac:(lia)) as Hb.
  lia.
Qed.

(** The binary search returns the upper bound of [s] in an ordered
    [result]: everything before the returned position has a spend at most
    that of [s], everything from it on a spend above. *)
Lemma search_upper_bound (result : list sample) (s : sample) (l r : nat) :
  spend_ordered result ->
  (l <= r <= length result)%nat ->
  (forall i, (i < l)%nat -> at_ result i <= s1 s) ->
  (forall i, (r <= i < length result)%nat -> s1 s < at_ result i) ->
  let k := search result s l r in
  (l <= k <= r)%nat
  /\ (forall i, (i < k)%nat -> at_ result i <= s1 s)
  /\ (forall i, (k <= i < length result)%nat -> s1 s < at_ result i).
Proof.
  funelim (search result s l r); intros Hord Hlr Hlow Hhigh; cbv zeta.
  - pose proof (mid_bounds l r l1) as Hmid.
    set (mid := ((l + r) / 2)%nat) in *.
    rewrite (nth_indep result s (0, 0)) by lia.
    destruct (Qle_bool (at_ result mid) (s1 s)) eqn:Hcmp.
    + apply Qle_bool_iff in Hcmp.
      assert (Hlow' : forall i, (i < mid + 1)%nat -> at_ result i <= s1 s).
      { intros i Hi. apply Qle_trans with (at_ result mid); [|exact Hcmp].
        apply Hord. lia. }
      destruct (H Hord ltac:(lia) Hlow' Hhigh) as (Hk & Hl & Hh).
      split; [lia|]. split; assumption.
    + assert (Hlt : s1 s < at_ result mid).
      { apply Qnot_le_lt. intros Hle. apply Qle_bool_iff in Hle. congruence. }
      assert (Hhigh' : forall i, (mid <= i < length result)%nat ->
                                 s1 s < at_ result i).
      { intros i Hi. apply Qlt_le_trans with (at_ result mid); [exact Hlt|].
        apply Hord. lia. }
      destruct (H0 Hord ltac:(lia) Hlow Hhigh') as (Hk & Hl & Hh).
      split; [lia|]. split; assumption.
  - split; [lia|]. split; [exact Hlow|].
    intros i Hi. apply Hhigh. lia.
Qed.

Lemma set_at_length (k : nat) (s : sample) (l : list sample) :
  length (set_at k s l) = length l.
Proof.
  revert k. induction l as [|x l IH]; intros [|k]; simpl; auto.
Qed.

Lemma set_at_nth (k i : nat) (s d : sample) (l : list sample) :
  (k < length l)%nat ->
  nth i (set_at k s l) d = if (i =? k)%nat then s else nth i l d.
Proof.
  revert k i. induction l as [|x l IH]; intros k i Hk; simpl in Hk; [lia|].
  destruct k as [|k], i as [|i]; simpl; try reflexivity.
  apply IH. lia.
Qed.

(** One iteration of the loop keeps the result ordered. *)
Lemma increasing_step_ordered (result : list sample) (s : sample) :
  spend_ordered result -> spend_ordered (increasing_step result s).
Proof.
  intros Hord.
  destruct (search_upper_bound result s 0 (length result) Hord ltac:(lia))
    as (Hk & Hlow & Hhigh).
  { intros i Hi. lia. }
  { intros i Hi. lia. }
  unfold increasing_step.
  set (k := search result s 0 (length result)) in *.
  destruct (k =? length result)%nat eqn:Hend.
  - apply Nat.eqb_eq in Hend. intros i j Hij.
    rewrite length_app in Hij. simpl in Hij.
    destruct (Nat.eq_dec j (length result)) as [Hj | Hj].
    + subst j. rewrite (app_nth2 result [s] (0, 0) (Nat.le_refl _)).
      rewrite Nat.sub_diag. simpl.
      destruct (Nat.eq_dec i (length result)) as [Hi | Hi].
      * subst i. rewrite (app_nth2 result [s] (0, 0) (Nat.le_refl _)).
        rewrite Nat.sub_diag. simpl. apply Qle_refl.
      * rewrite app_nth1 by lia. apply Hlow. lia.
    + rewrite !app_nth1 by lia. apply Hord. lia.
  - apply Nat.eqb_neq in Hend. intros i j Hij.
    rewrite set_at_length in Hij.
    rewrite !set_at_nth by lia.
    destruct (i =? k)%nat eqn:Hi, (j =? k)%nat eqn:Hj;
      rewrite ?Nat.eqb_eq, ?Nat.eqb_neq in *.
    + apply Qle_refl.
    + apply Qlt_le_weak. apply Hhigh. lia.
    + apply Hlow. lia.
    + apply Hord. lia.
Qed.

Lemma fold_increasing_step_ordered (samples result : list sample) :
  spend_ordered result ->
  spend_ordered (fold_left increasing_step samples result).
Proof.
  revert result. induction samples as [|s samples IH]; intros result Hord.
  - exact Hord.
  - simpl. apply IH. apply increasing_step_ordered. exact Hord.
Qed.

Lemma spend_ordered_nondecreasing (l : list sample) :
  spend_ordered l -> spend_nondecreasing l.
Proof.
  unfold spend_nondecreasing.
  induction l as [|a l IH]; intros Hord; constructor.
  - apply IH. intros i j Hij. apply (Hord (S i) (S j)). simpl. lia.
  - apply Forall_forall. intros b Hb.
    destruct (In_nth l b (0, 0) Hb) as (n & Hn & Hnth).
    rewrite <- Hnth. apply (Hord 0%nat (S n)). simpl. lia.
Qed.

End Envelope.

(** C5: for every input sample list, the sequence produced by
    [increasing_subsequence] has spend coordinates that are non-decreasing
    from its first element to its last. *)
Theorem increasing_subsequence_nondecreasing (samples : list sample) :
  spend_nondecreasing (increasing_subsequence samples).
Proof.
  apply spend_ordered_nondecreasing.
  apply fold_increasing_step_ordered.
  intros i j Hij. simpl in Hij. lia.
Qed.

(** ** [reset] *)

Section Reset.
Import IMPCBudgetBidder.

Lemma init_fresh (b : Q) (rpi rps : Z) (bs : Q) (mem : Z) (fresh : t) :
  init b rpi rps bs mem = Ok fresh ->
  fresh = Build b 0 rps rpi (b * inject_Z rps / inject_Z rpi) [] bs 1 0 mem.
Proof.
  unfold init. destruct (rpi =? 0)%Z; [discriminate|].
  intros H. injection H as <-. reflexivity.
Qed.

Lemma charge_config (self : t) (price : Q) (cur_round : Z) (ctr value : Q) :
  config (state_of (charge self price cur_round ctr value)) = config self.
Proof.
  unfold charge. simpl.
  destruct (rounds_per_step self =? 0)%Z; [reflexivity|].
  destruct (cur_round mod _ =? 0)%Z; reflexivity.
Qed.

Lemma BidCap_charge_config (self : t) (price : Q) (cur_round : Z) (ctr value : Q) :
  config (state_of (BidCapBidder.charge self price cur_round ctr value))
  = config self.
Proof.
  unfold BidCapBidder.charge, charge. simpl.
  destruct (rounds_per_step self =? 0)%Z; [reflexivity|].
  destruct (cur_round mod _ =? 0)%Z; reflexivity.
Qed.

Lemma IMPC_reachable_config (fresh self : t) :
  IMPCRun.reachable fresh self -> config self = config fresh.
Proof.
  induction 1 as [|self self' _ IH Hstep]; [reflexivity|].
  rewrite <- IH. destruct Hstep.
  - apply charge_config.
  - reflexivity.
  - reflexivity.
Qed.

Lemma BidCap_reachable_config (fresh self : t) :
  BidCapRun.reachable fresh self -> config self = config fresh.
Proof.
  induction 1 as [|self self' _ IH Hstep]; [reflexivity|].
  rewrite <- IH. destruct Hstep.
  - apply BidCap_charge_config.
  - reflexivity.
  - reflexivity.
Qed.

(** What [reset] gives on a state with the configuration of [fresh]. *)
Lemma reset_of_config (b : Q) (rpi rps : Z) (bs : Q) (mem : Z) (fresh self : t) :
  init b rpi rps bs mem = Ok fresh ->
  config self = config fresh ->
  roi_bid (reset self) = 1
  /\ bid2spend_history (reset self) = []
  /\ spending (reset self) = 0
  /\ budget (reset self) = b
  /\ (step_spending self = 0 -> reset self = fresh).
Proof.
  intros Hinit Hcfg. apply init_fresh in Hinit. subst fresh.
  destruct self as [b' sp rps' rpi' tgt hist bs' roi ss mem'].
  unfold config in Hcfg. simpl in Hcfg.
  injection Hcfg as -> -> -> -> -> ->.
  repeat split. simpl. intros ->. reflexivity.
Qed.

End Reset.

Section SPBReset.
Import SPBBidder.
Variable curve_fit : list Q -> list Q -> option (Q * Q).

Lemma SPB_charge_config (self : t) (price : Q) (cur_round : Z) (ctr value : Q) :
  config (state_of (charge self price cur_round ctr value)) = config self.
Proof.
  unfold charge. simpl.
  destruct (IMPCBudgetBidder.rounds_per_step (base self) =? 0)%Z; [reflexivity|].
  destruct (cur_round mod _ =? 0)%Z; [|reflexivity].
  destruct (Qltb 0 (optimal_budget self)); [reflexivity|].
  destruct (IMPCBudgetBidder.rounds_per_iter (base self) =? 0)%Z; reflexivity.
Qed.

Lemma SPB_update_config (self : t) (contexts : bool) (prices : list Q)
    (sum_values : Q) (won_mask : list bool) :
  config (state_of (update curve_fit self contexts prices sum_values won_mask))
  = config self.
Proof.
  assert (Hrefit : forall s, config (refit curve_fit s) = config s).
  { intros s. unfold refit.
    destruct (if (1 <? length (spend_history s))%nat
              then fit_model curve_fit (spend_history s) (value_history s)
              else (false, 1, 1)) as [[ready a] b].
    destruct ready; reflexivity. }
  unfold update, record_iteration. destruct contexts.
  - destruct (masked prices won_mask); simpl; [|reflexivity].
    rewrite Hrefit. reflexivity.
  - simpl. apply Hrefit.
Qed.

Lemma SPB_reachable_config (fresh self : t) :
  SPBRun.reachable curve_fit fresh self -> config self = config fresh.
Proof.
  induction 1 as [|self self' _ IH Hstep]; [reflexivity|].
  rewrite <- IH. destruct Hstep.
  - apply SPB_charge_config.
  - apply SPB_update_config.
  - reflexivity.
Qed.

Lemma SPB_reset_of_config (b : Q) (rpi rps : Z) (bs : Q) (mem spb_mem : Z)
    (cap : Q) (fresh self : t) :
  init b rpi rps bs mem spb_mem cap = Ok fresh ->
  config self = config fresh ->
  IMPCBudgetBidder.roi_bid (base (reset self)) = 1
  /\ IMPCBudgetBidder.bid2spend_history (base (reset self)) = []
  /\ spend_history (reset self) = []
  /\ value_history (reset self) = []
  /\ optimal_budget (reset self) = -1
  /\ IMPCBudgetBidder.spending (base (reset self)) = 0
  /\ IMPCBudgetBidder.budget (base (reset self)) = b
  /\ (IMPCBudgetBidder.step_spending (base self) = 0 -> reset self = fresh).
Proof.
  unfold init. intros Hinit Hcfg.
  destruct (IMPCBudgetBidder.init b rpi rps bs mem) as [fb|] eqn:Hb;
    [|discriminate].
  injection Hinit as <-.
  pose proof (f_equal (fun c => fst (fst c)) Hcfg) as Hbase.
  pose proof (f_equal (fun c => snd (fst c)) Hcfg) as Hmem.
  pose proof (f_equal snd Hcfg) as Hcap.
  simpl in Hbase, Hmem, Hcap. clear Hcfg.
  destruct (reset_of_config b rpi rps bs mem fb (base self) Hb Hbase)
    as (Hroi & Hhist & Hsp & Hbud & Hfresh).
  destruct self as [sb sm sc so sh vh]. simpl in *. subst sm sc.
  repeat split; try assumption.
  intros Hss. unfold reset. simpl. rewrite (Hfresh Hss). reflexivity.
Qed.

End SPBReset.

(** C2 (as the code has it): [reset] is found on IMPCBudgetBidder, on
    BidCapBidder (inherited) and on SPBBidder; MPCBidder, the PID
    controller, has no [reset].  On a controller built by [__init__] and
    then driven by any calls, [reset] sets [roi_bid] to 1, empties every
    history buffer, sets [spending] to 0 (and, for SPBBidder,
    [optimal_budget] to -1), and keeps the budget drawn at construction;
    when [step_spending] is 0 at the call, the object is again exactly the
    freshly constructed one, so everything it does afterwards is what the
    fresh controller does. *)
Theorem reset_restores_fresh_state
    (budget : Q) (rounds_per_iter rounds_per_step : Z) (bid_step : Q)
    (memory : Z) :
  (lookup cls_IMPCBudgetBidder m_reset = Some cls_IMPCBudgetBidder
   /\ lookup cls_BidCapBidder m_reset = Some cls_IMPCBudgetBidder
   /\ lookup cls_SPBBidder m_reset = Some cls_SPBBidder
   /\ lookup cls_MPCBidder m_reset = None)
  /\ (forall fresh self : IMPCBudgetBidder.t,
      IMPCBudgetBidder.init budget rounds_per_iter rounds_per_step bid_step memory
        = Ok fresh ->
      IMPCRun.reachable fresh self \/ BidCapRun.reachable fresh self ->
      let after := IMPCBudgetBidder.reset self in
      IMPCBudgetBidder.roi_bid after = 1
      /\ IMPCBudgetBidder.bid2spend_history after = []
      /\ IMPCBudgetBidder.spending after = 0
      /\ IMPCBudgetBidder.budget after = budget
      /\ (IMPCBudgetBidder.step_spending self = 0 -> after = fresh))
  /\ (forall (curve_fit : list Q -> list Q -> option (Q * Q))
        (spb_memory : Z) (explore_bid_max : Q) (fresh self : SPBBidder.t),
      SPBBidder.init budget rounds_per_iter rounds_per_step bid_step memory
        spb_memory explore_bid_max = Ok fresh ->
      SPBRun.reachable curve_fit fresh self ->
      let after := SPBBidder.reset self in
      IMPCBudgetBidder.roi_bid (SPBBidder.base after) = 1
      /\ IMPCBudgetBidder.bid2spend_history (SPBBidder.base after) = []
      /\ SPBBidder.spend_history after = []
      /\ SPBBidder.value_history after = []
      /\ SPBBidder.optimal_budget after = -1
      /\ IMPCBudgetBidder.spending (SPBBidder.base after) = 0
      /\ IMPCBudgetBidder.budget (SPBBidder.base after) = budget
      /\ (IMPCBudgetBidder.step_spending (SPBBidder.base self) = 0 ->
          after = fresh)).
Proof.
  split; [repeat split|]. split.
  - intros fresh self Hinit Hreach.
    apply (reset_of_config budget rounds_per_iter rounds_per_step bid_step memory);
      [exact Hinit|].
    destruct Hreach as [H | H].
    + apply IMPC_reachable_config. exact H.
    + apply BidCap_reachable_config. exact H.
  - intros curve_fit spb_memory explore_bid_max fresh self Hinit Hreach.
    apply (SPB_reset_of_config budget rounds_per_iter rounds_per_step bid_step
             memory spb_memory explore_bid_max); [exact Hinit|].
    apply (SPB_reachable_config curve_fit). exact Hreach.
Qed.

Lemma reset_restores_fresh_state_witness :
  let fresh := IMPCBudgetBidder.Build 10 0 2 4 (20 # 4) [] (1 # 10) 1 0 3 in
  let self := state_of (IMPCBudgetBidder.charge fresh 5 2 1 1) in
  IMPCBudgetBidder.init 10 4 2 (1 # 10) 3 = Ok fresh
  /\ IMPCRun.reachable fresh self
  /\ IMPCBudgetBidder.step_spending self = 0
  /\ self <> fresh
  /\ IMPCBudgetBidder.reset self = fresh.
Proof.
  intros fresh self.
  assert (Hinit : IMPCBudgetBidder.init 10 4 2 (1 # 10) 3 = Ok fresh)
    by reflexivity.
  assert (Hreach : IMPCRun.reachable fresh self).
  { eapply IMPCRun.reach_step; [apply IMPCRun.reach_fresh|].
    apply IMPCRun.step_charge. }
  assert (Hss : IMPCBudgetBidder.step_spending self = 0) by reflexivity.
  destruct (reset_restores_fresh_state 10 4 2 (1 # 10) 3) as (_ & Himpc & _).
  destruct (Himpc fresh self Hinit (or_introl Hreach)) as (_ & _ & _ & _ & Hfresh).
  split; [exact Hinit|]. split; [exact Hreach|]. split; [exact Hss|].
  split; [|exact (Hfresh Hss)].
  vm_compute. discriminate.
Defined.

(** C2 as stated fails: after a charge inside a step, [reset] leaves
    [step_spending] at 5, the object differs from the fresh one, and the
    next step boundary sets a different [roi_bid] (1 instead of 1.1). *)
Lemma reset_keeps_step_spending :
  let fresh := IMPCBudgetBidder.Build 10 0 2 4 (20 # 4) [] (1 # 10) 1 0 3 in
  let self := state_of (IMPCBudgetBidder.charge fresh 5 1 1 1) in
  let after := IMPCBudgetBidder.reset self in
  IMPCBudgetBidder.init 10 4 2 (1 # 10) 3 = Ok fresh
  /\ IMPCBudgetBidder.step_spending after = 5
  /\ ~ IMPCBudgetBidder.step_spending after == 0
  /\ after <> fresh
  /\ IMPCBudgetBidder.roi_bid (state_of (IMPCBudgetBidder.charge after 0 2 1 1))
     == 1
  /\ IMPCBudgetBidder.roi_bid (state_of (IMPCBudgetBidder.charge fresh 0 2 1 1))
     == 1.1
  /\ lookup cls_MPCBidder m_reset = None.
Proof.
  cbv zeta.
  split; [reflexivity|]. split; [vm_compute; reflexivity|].
  split; [intros H; vm_compute in H; discriminate H|].
  split; [intros H; vm_compute in H; discriminate H|].
  split; [vm_compute; reflexivity|].
  split; vm_compute; reflexivity.
Qed.

(** ** The response curve and [opt_spend] *)

(** The rational [opt_spend] of the controllers is the real one. *)
Lemma opt_spend_Q2R (a b : Q) :
  ~ a == 0 -> Q2R (opt_spend a b) = Curve.opt_spend (Q2R a) (Q2R b).
Proof.
  intros Ha. unfold opt_spend, Curve.opt_spend, Qdiv.
  rewrite Q2R_mult, Q2R_inv, Q2R_minus, Q2R_mult by exact Ha.
  replace (Q2R 2) with 2%R by (unfold Q2R; simpl; lra).
  reflexivity.
Qed.

Section CurveFacts.
Local Open Scope R_scope.

(** The slope of the response curve wherever the radicand is positive. *)
Lemma spend2value_derivative (a b s : R) :
  a <> 0 -> 0 < b * b + 2 * a * s ->
  derivable_pt_lim (fun x => Curve.spend2value x a b) s
    (/ sqrt (b * b + 2 * a * s)).
Proof.
  intros Ha Hpos.
  assert (Hsq : 0 < sqrt (b * b + 2 * a * s)) by (apply sqrt_lt_R0; exact Hpos).
  pose (g := plus_fct (fct_cte (b * b)) (mult_real_fct (2 * a) id)).
  assert (Hg : derivable_pt_lim g s (0 + 2 * a * 1)).
  { apply derivable_pt_lim_plus.
    - apply derivable_pt_lim_const.
    - apply derivable_pt_lim_scal. apply derivable_pt_lim_id. }
  assert (Hgs : g s = b * b + 2 * a * s).
  { unfold g, plus_fct, fct_cte, mult_real_fct, id. reflexivity. }
  assert (Hroot : derivable_pt_lim (comp sqrt g) s
                    (/ (2 * sqrt (g s)) * (0 + 2 * a * 1))).
  { apply derivable_pt_lim_comp; [exact Hg|].
    apply derivable_pt_lim_sqrt. rewrite Hgs. exact Hpos. }
  assert (Hall : derivable_pt_lim
                   (mult_real_fct (/ a) (minus_fct (comp sqrt g) (fct_cte b))) s
                   (/ a * (/ (2 * sqrt (g s)) * (0 + 2 * a * 1) - 0))).
  { apply derivable_pt_lim_scal. apply derivable_pt_lim_minus.
    - exact Hroot.
    - apply derivable_pt_lim_const. }
  rewrite Hgs in Hall.
  replace (/ sqrt (b * b + 2 * a * s))
    with (/ a * (/ (2 * sqrt (b * b + 2 * a * s)) * (0 + 2 * a * 1) - 0))
    by (field; split; lra).
  eapply derivable_pt_lim_ext; [|exact Hall].
  intros z. unfold g, Curve.spend2value, comp, minus_fct, plus_fct.
  unfold mult_real_fct, fct_cte, id.
  field. exact Ha.
Qed.

(** The radicand at [opt_spend] is a square. *)
Lemma radicand_at_opt_spend (a b : R) :
  a <> 0 -> b * b + 2 * a * Curve.opt_spend a b = (2 - b) * (2 - b).
Proof. intros Ha. unfold Curve.opt_spend. field. exact Ha. Qed.

Lemma sqrt_radicand_at_opt_spend (a b : R) :
  a <> 0 -> b <= 2 -> sqrt (b * b + 2 * a * Curve.opt_spend a b) = 2 - b.
Proof.
  intros Ha Hb. rewrite radicand_at_opt_spend by exact Ha.
  apply sqrt_square. lra.
Qed.

Lemma opt_spend_slope (a b : R) :
  0 < a -> b < 2 ->
  derivable_pt_lim (fun s => Curve.spend2value s a b) (Curve.opt_spend a b)
    (/ (2 - b)).
Proof.
  intros Ha Hb.
  rewrite <- (sqrt_radicand_at_opt_spend a b) by lra.
  apply spend2value_derivative; [lra|].
  rewrite radicand_at_opt_spend by lra. nra.
Qed.

(** C3 (as the code has it): for all [a > 0] and [0 <= b < 2],
    [opt_spend(a, b) = (2 - 2b) / a] is the spend level [s] at which
    [spend2value(s, a, b) = s], the value bought equal to the spend; the
    derivative of [spend2value] with respect to [s] there is [1 / (2 - b)],
    which is 1 exactly when [b = 1]. *)
Theorem opt_spend_is_break_even (a b : R) :
  0 < a -> 0 <= b -> b < 2 ->
  Curve.opt_spend a b = (2 - 2 * b) / a
  /\ Curve.spend2value (Curve.opt_spend a b) a b = Curve.opt_spend a b
  /\ derivable_pt_lim (fun s => Curve.spend2value s a b) (Curve.opt_spend a b)
       (/ (2 - b))
  /\ (derivable_pt_lim (fun s => Curve.spend2value s a b) (Curve.opt_spend a b) 1
      <-> b = 1).
Proof.
  intros Ha Hb0 Hb2.
  pose proof (opt_spend_slope a b Ha Hb2) as Hslope.
  split; [reflexivity|]. split; [|split; [exact Hslope|]].
  - unfold Curve.spend2value.
    rewrite sqrt_radicand_at_opt_spend by lra.
    unfold Curve.opt_spend. field. lra.
  - split.
    + intros Hone.
      pose proof (uniqueness_limite _ _ _ _ Hone Hslope) as Heq.
      assert (H : (2 - b) * / (2 - b) = 1) by (apply Rinv_r; lra).
      rewrite <- Heq in H. lra.
    + intros ->. replace 1 with (/ (2 - 1)) at 2 by (field_simplify; lra).
      exact Hslope.
Qed.

Lemma opt_spend_is_break_even_witness :
  0 < 1 /\ 0 <= / 2 /\ / 2 < 2
  /\ Curve.spend2value (Curve.opt_spend 1 (/ 2)) 1 (/ 2) = Curve.opt_spend 1 (/ 2).
Proof.
  assert (Ha : 0 < 1) by lra.
  assert (Hb0 : 0 <= / 2) by lra.
  assert (Hb2 : / 2 < 2) by lra.
  split; [exact Ha|]. split; [exact Hb0|]. split; [exact Hb2|].
  exact (proj1 (proj2 (opt_spend_is_break_even 1 (/ 2) Ha Hb0 Hb2))).
Defined.

(** C3 as stated fails: for [a = 1], [b = 0] the spend level
    [opt_spend(1, 0)] is 2, the curve is [sqrt(2 s)], and its derivative at
    2 is 1/2, not 1. *)
Lemma opt_spend_marginal_value_not_one :
  0 < 1 /\ 0 <= 0
  /\ Curve.opt_spend 1 0 = 2
  /\ derivable_pt_lim (fun s => Curve.spend2value s 1 0) (Curve.opt_spend 1 0)
       (/ 2)
  /\ ~ derivable_pt_lim (fun s => Curve.spend2value s 1 0) (Curve.opt_spend 1 0) 1.
Proof.
  assert (Hslope : derivable_pt_lim (fun s => Curve.spend2value s 1 0)
                     (Curve.opt_spend 1 0) (/ 2)).
  { replace (/ 2) with (/ (2 - 0)) by (f_equal; lra).
    apply opt_spend_slope; lra. }
  split; [lra|]. split; [lra|].
  split; [unfold Curve.opt_spend; field|].
  split; [exact Hslope|].
  intros Hone.
  pose proof (uniqueness_limite _ _ _ _ Hone Hslope). lra.
Qed.

End CurveFacts.

(** * Further properties of the code *)

(** ** [sorted] *)


Lemma sample_ltb_bids (a b : sample) :
  (sample_ltb a b = true -> s0 a <= s0 b)
  /\ (sample_ltb a b = false -> s0 b <= s0 a).
Proof.
  unfold sample_ltb.
  destruct (Qeq_bool (s0 a) (s0 b)) eqn:Heq.
  - apply Qeq_bool_iff in Heq. split; intros _; lra.
  - split; intros H; [apply Qltb_true in H | apply Qltb_false in H]; lra.
Qed.

Lemma insert_sorted_perm (x : sample) (l : list sample) :
  Permutation (insert_sorted x l) (x :: l).
Proof.
  induction l as [|y l IH]; simpl; [reflexivity|].
  destruct (sample_ltb y x); [|reflexivity].
  rewrite IH. apply perm_swap.
Qed.

Lemma insert_sorted_ascending (x : sample) (l : list sample) :
  bid_ascending l -> bid_ascending (insert_sorted x l).
Proof.
  unfold bid_ascending. intros Hl.
  induction Hl as [|y l Hl IH Hy]; simpl.
  - constructor; constructor.
  - destruct (sample_ltb y x) eqn:Hcmp.
    + apply (proj1 (sample_ltb_bids y x)) in Hcmp.
      constructor; [exact IH|].
      apply (Permutation_Forall (Permutation_sym (insert_sorted_perm x l))).
      constructor; assumption.
    + apply (proj2 (sample_ltb_bids y x)) in Hcmp.
      constructor; [constructor; assumption|].
      constructor; [exact Hcmp|].
      apply (Forall_impl _ (P := fun b => s0 y <= s0 b)); [|exact Hy].
      intros b Hb. lra.
Qed.

Lemma sorted_ascending_permutation_aux (l : list sample) :
  Permutation (sorted l) l.
Proof.
  induction l as [|x l IH]; simpl; [reflexivity|].
  rewrite insert_sorted_perm. constructor. exact IH.
Qed.

(** X3: [sorted] returns a rearrangement of its input in which the bids
    ascend, for every history. *)
Theorem sorted_ascending_permutation (l : list sample) :
  Permutation (sorted l) l /\ bid_ascending (sorted l).
Proof.
  induction l as [|x l [IHp IHs]]; simpl.
  - split; [reflexivity | constructor].
  - split.
    + rewrite insert_sorted_perm. constructor. exact IHp.
    + apply insert_sorted_ascending. exact IHs.
Qed.

(** ** The denoise step *)

Lemma aggregate_loop_length (distance : Q) (samples current result : list sample) :
  (length (aggregate_loop distance samples current result)
   <= length result + length current + length samples)%nat
  /\ ((0 < length current + length samples)%nat ->
      (0 < length (aggregate_loop distance samples current result))%nat).
Proof.
  revert current result.
  induction samples as [|s rest IH]; intros current result; simpl.
  - destruct current as [|c cur]; simpl.
    + split; lia.
    + rewrite length_app. simpl. split; lia.
  - destruct current as [|c cur].
    + destruct (IH ([] ++ [s]) result) as [Hle Hpos]. simpl in *. split; lia.
    + destruct (Qltb (s0 s) (s0 c * (1 + distance))).
      * destruct (IH ((c :: cur) ++ [s]) result) as [Hle Hpos].
        rewrite length_app in *. simpl in *. split; lia.
      * destruct (IH [] (result ++ [mean_sample (c :: cur)])) as [Hle _].
        assert (Hmono : forall ss cu re,
                  (length re <= length (aggregate_loop distance ss cu re))%nat).
        { clear. induction ss as [|s' ss IHs]; intros cu re; simpl.
          - destruct cu; [lia|]. rewrite length_app. simpl. lia.
          - destruct cu as [|c' cu'].
            + apply IHs.
            + destruct (Qltb (s0 s') (s0 c' * (1 + distance))).
              * apply IHs.
              * etransitivity; [|apply IHs]. rewrite length_app. simpl. lia. }
        pose proof (Hmono rest [] (result ++ [mean_sample (c :: cur)])) as Hm.
        rewrite length_app in *. simpl in *. split; lia.
Qed.

(** X4: [aggregate_near_sample] never returns more samples than it is
    given, and returns at least one whenever it is given one. *)
Theorem aggregate_near_sample_length (samples : list sample) :
  (length (aggregate_near_sample samples) <= length samples)%nat
  /\ (samples <> [] -> aggregate_near_sample samples <> []).
Proof.
  destruct (aggregate_loop_length (1 # 1000000) samples [] []) as [Hle Hpos].
  split; [exact Hle|].
  intros Hne Hnil.
  unfold aggregate_near_sample, aggregate_near_sample_d in Hnil.
  rewrite Hnil in Hpos. simpl in Hpos.
  destruct samples; [congruence|]. simpl in Hpos. lia.
Qed.

Lemma aggregate_loop_one_run (distance : Q) (c : sample) (cur rest : list sample) :
  Forall (fun s => s0 s < s0 c * (1 + distance)) rest ->
  aggregate_loop distance rest (c :: cur) []
  = [mean_sample ((c :: cur) ++ rest)].
Proof.
  revert cur. induction rest as [|s rest IH]; intros cur Hall.
  - simpl. rewrite app_nil_r. reflexivity.
  - inversion Hall as [|? ? Hs Hrest]; subst.
    simpl. apply Qltb_true in Hs. rewrite Hs.
    rewrite (IH (cur ++ [s]) Hrest).
    simpl. rewrite <- app_assoc. reflexivity.
Qed.

(** X5: when every bid after the first is below the first bid times
    [1 + 1e-6], the whole input is one run and [aggregate_near_sample]
    returns the single sample made of the mean bid and the mean spend. *)
Theorem aggregate_near_sample_one_run (c : sample) (rest : list sample) :
  Forall (fun s => s0 s < s0 c * (1 + (1 # 1000000))) rest ->
  aggregate_near_sample (c :: rest) = [mean_sample (c :: rest)].
Proof.
  intros Hall. unfold aggregate_near_sample, aggregate_near_sample_d.
  simpl. apply (aggregate_loop_one_run _ c [] rest Hall).
Qed.

Lemma aggregate_near_sample_one_run_witness :
  Forall (fun s => s0 s < s0 (1, 10) * (1 + (1 # 1000000))) [(1, 20); (1, 30)]
  /\ aggregate_near_sample [(1, 10); (1, 20); (1, 30)]
     = [mean_sample [(1, 10); (1, 20); (1, 30)]].
Proof.
  assert (H : Forall (fun s => s0 s < s0 (1, 10) * (1 + (1 # 1000000)))
                [(1, 20); (1, 30)]).
  { repeat constructor. }
  split; [exact H|]. exact (aggregate_near_sample_one_run (1, 10) _ H).
Defined.

(** ** The monotonic envelope, continued *)

Lemma spend_ordered_prefix (a b : list sample) :
  spend_ordered (a ++ b) -> spend_ordered a.
Proof.
  intros H i j Hij.
  pose proof (H i j) as Hq. rewrite length_app in Hq.
  rewrite !app_nth1 in Hq by lia. apply Hq. lia.
Qed.

Lemma nondecreasing_ordered (l : list sample) :
  spend_nondecreasing l -> spend_ordered l.
Proof.
  unfold spend_nondecreasing. intros Hl.
  induction Hl as [|a l Hl IH Ha]; intros i j Hij; simpl in Hij.
  - lia.
  - destruct i as [|i], j as [|j]; simpl; try lia.
    + apply Qle_refl.
    + rewrite Forall_forall in Ha. apply Ha. apply nth_In. lia.
    + apply IH. lia.
Qed.

(** A sample whose spend is at least every spend already kept is
    appended. *)
Lemma increasing_step_appends (acc : list sample) (s : sample) :
  spend_ordered (acc ++ [s]) -> increasing_step acc s = acc ++ [s].
Proof.
  intros Hord.
  pose proof (spend_ordered_prefix acc [s] Hord) as Hacc.
  destruct (search_upper_bound acc s 0 (length acc) Hacc ltac:(lia))
    as (Hk & _ & Hhigh).
  { intros i Hi. lia. }
  { intros i Hi. lia. }
  unfold increasing_step.
  set (k := search acc s 0 (length acc)) in *.
  destruct (k =? length acc)%nat eqn:Hend; [reflexivity|].
  apply Nat.eqb_neq in Hend. exfalso.
  assert (Hlt : s1 s < s1 (nth k acc (0, 0))) by (apply Hhigh; lia).
  pose proof (Hord k (length acc)) as Hle.
  rewrite length_app in Hle. simpl in Hle.
  rewrite app_nth1 in Hle by lia.
  rewrite app_nth2, Nat.sub_diag in Hle by lia. simpl in Hle.
  specialize (Hle ltac:(lia)). lra.
Qed.

Lemma fold_increasing_step_appends (l acc : list sample) :
  spend_ordered (acc ++ l) -> fold_left increasing_step l acc = acc ++ l.
Proof.
  revert acc. induction l as [|s l IH]; intros acc Hord; simpl.
  - rewrite app_nil_r. reflexivity.
  - replace (acc ++ s :: l) with ((acc ++ [s]) ++ l) in *
      by (rewrite <- app_assoc; reflexivity).
    rewrite increasing_step_appends by (apply (spend_ordered_prefix _ l Hord)).
    apply IH. exact Hord.
Qed.

(** X6: a sample list whose spends are already non-decreasing is returned
    unchanged by [increasing_subsequence]; hence applying the envelope
    twice gives what applying it once gives. *)
Theorem increasing_subsequence_fixes_monotone (samples : list sample) :
  (spend_nondecreasing samples -> increasing_subsequence samples = samples)
  /\ increasing_subsequence (increasing_subsequence samples)
     = increasing_subsequence samples.
Proof.
  split.
  - intros Hl. apply (fold_increasing_step_appends samples []).
    apply nondecreasing_ordered. exact Hl.
  - apply (fold_increasing_step_appends _ []). simpl.
    apply fold_increasing_step_ordered.
    intros i j Hij. simpl in Hij. lia.
Qed.

Lemma increasing_subsequence_fixes_monotone_witness :
  spend_nondecreasing [(3, 10); (1, 10); (2, 20)]
  /\ increasing_subsequence [(3, 10); (1, 10); (2, 20)]
     = [(3, 10); (1, 10); (2, 20)].
Proof.
  assert (H : spend_nondecreasing [(3, 10); (1, 10); (2, 20)]).
  { unfold spend_nondecreasing.
    repeat (constructor; try (vm_compute; discriminate)). }
  split; [exact H|].
  exact (proj1 (increasing_subsequence_fixes_monotone _) H).
Defined.

Lemma set_at_In (k : nat) (s x : sample) (l : list sample) :
  In x (set_at k s l) -> x = s \/ In x l.
Proof.
  revert k. induction l as [|y l IH]; intros [|k] H; simpl in H;
    try contradiction.
  - destruct H as [H | H]; [left; congruence | right; right; exact H].
  - destruct H as [H | H]; [right; left; exact H|].
    destruct (IH k H) as [Hs | Hin]; [left; exact Hs | right; right; exact Hin].
Qed.

Lemma increasing_step_facts (result : list sample) (s : sample) :
  (forall x, In x (increasing_step result s) -> x = s \/ In x result)
  /\ (length result <= length (increasing_step result s) <= S (length result))%nat
  /\ (0 < length (increasing_step result s))%nat.
Proof.
  unfold increasing_step.
  destruct (search result s 0 (length result) =? length result)%nat eqn:Hend.
  - split; [|rewrite length_app; simpl; lia].
    intros x Hx. apply in_app_or in Hx.
    destruct Hx as [Hx | [Hx | []]]; [right; exact Hx | left; congruence].
  - split; [intros x Hx; apply (set_at_In _ _ _ _ Hx)|].
    rewrite set_at_length. split; [lia|].
    destruct result as [|y result]; [|simpl; lia].
    exfalso. apply Nat.eqb_neq in Hend. apply Hend. reflexivity.
Qed.

Lemma fold_increasing_step_facts (samples acc : list sample) :
  (forall x, In x (fold_left increasing_step samples acc) ->
             In x acc \/ In x samples)
  /\ (length acc <= length (fold_left increasing_step samples acc)
      <= length acc + length samples)%nat
  /\ (samples <> [] -> fold_left increasing_step samples acc <> []).
Proof.
  revert acc. induction samples as [|s samples IH]; intros acc; simpl.
  - split; [intros x Hx; left; exact Hx|]. split; [lia|].
    intros H. exfalso. apply H. reflexivity.
  - destruct (IH (increasing_step acc s)) as (Hin & Hlen & _).
    destruct (increasing_step_facts acc s) as (Hin1 & Hlen1 & Hpos1).
    split; [|split].
    + intros x Hx. destruct (Hin x Hx) as [H | H].
      * destruct (Hin1 x H) as [-> | H']; [right; left; reflexivity | left; exact H'].
      * right; right; exact H.
    + lia.
    + intros _ Hnil. rewrite Hnil in Hlen. simpl in Hlen. lia.
Qed.

(** X7: [increasing_subsequence] only selects: every sample it returns is
    one of the input samples, it returns no more samples than it is given,
    and at least one whenever the input is not empty. *)
Theorem increasing_subsequence_selects (samples : list sample) :
  (forall x, In x (increasing_subsequence samples) -> In x samples)
  /\ (length (increasing_subsequence samples) <= length samples)%nat
  /\ (samples <> [] -> increasing_subsequence samples <> []).
Proof.
  destruct (fold_increasing_step_facts samples []) as (Hin & Hlen & Hne).
  split; [|split].
  - intros x Hx. destruct (Hin x Hx) as [[] | H]. exact H.
  - simpl in Hlen. apply Hlen.
  - exact Hne.
Qed.

(** ** The solver *)

(** The samples the solver interpolates over. *)
Lemma processed_nonempty (history : list sample) :
  history <> [] ->
  increasing_subsequence (aggregate_near_sample (sorted history)) <> [].
Proof.
  intros Hne.
  apply (proj2 (proj2 (fold_increasing_step_facts _ []))).
  destruct (aggregate_loop_length (1 # 1000000) (sorted history) [] [])
    as [_ Hpos].
  intros Hnil.
  unfold aggregate_near_sample, aggregate_near_sample_d in Hnil.
  rewrite Hnil in Hpos.
  assert (Hlen : length (sorted history) = length history).
  { apply Permutation_length. apply sorted_ascending_permutation_aux. }
  rewrite Hlen in Hpos.
  destruct history; [congruence|]. simpl in Hpos. lia.
Qed.

Lemma impc_walk_anchor (target bid spend : Q) (samples : list sample) (r : Q) :
  impc_walk target bid spend samples = Some r ->
  exists p x1 y1,
    In p samples /\ r = liner_solve x1 y1 (s1 p) (s0 p) target.
Proof.
  revert bid spend. induction samples as [|s rest IH]; intros bid spend H;
    simpl in H; [discriminate|].
  destruct (Qltb (s1 s) target).
  - destruct (IH _ _ H) as (p & x1 & y1 & Hin & Hr).
    exists p, x1, y1. split; [right; exact Hin | exact Hr].
  - injection H as <-. exists s, spend, bid. split; [left|]; reflexivity.
Qed.

Lemma last_In (l : list sample) (d : sample) : l <> [] -> In (last l d) l.
Proof.
  induction l as [|x l IH]; intros Hne; [congruence|].
  destruct l as [|y l]; [left; reflexivity|].
  right. apply IH. discriminate.
Qed.

(** X8: the neutral value 1 is what [impc] returns on the empty history;
    on every other history the answer is a [liner_solve] whose second
    anchor is a sample [(bid, spend)] of the envelope (the history after
    sorting, denoising and filtering), used as the point [(spend, bid)]. *)
Theorem impc_default_and_anchor (history : list sample) (target : Q) :
  impc [] target = 1
  /\ (history <> [] ->
      exists p x1 y1,
        In p (increasing_subsequence (aggregate_near_sample (sorted history)))
        /\ impc history target = liner_solve x1 y1 (s1 p) (s0 p) target).
Proof.
  split; [reflexivity|].
  intros Hne. pose proof (processed_nonempty history Hne) as Hproc.
  unfold impc.
  destruct (increasing_subsequence (aggregate_near_sample (sorted history)))
    as [|q samples] eqn:Hs; [congruence|].
  destruct (impc_walk target 0 0 (q :: samples)) as [r|] eqn:Hw.
  - apply impc_walk_anchor in Hw. exact Hw.
  - exists (last (q :: samples) (0, 0)), 0, 0.
    split; [apply last_In; discriminate | reflexivity].
Qed.

Lemma impc_default_and_anchor_witness :
  [(1, 10); (2, 20)] <> []
  /\ exists p x1 y1,
      In p (increasing_subsequence
              (aggregate_near_sample (sorted [(1, 10); (2, 20)])))
      /\ impc [(1, 10); (2, 20)] 15 = liner_solve x1 y1 (s1 p) (s0 p) 15.
Proof.
  assert (H : [(1, 10); (2, 20)] <> []) by discriminate.
  split; [exact H|].
  exact (proj2 (impc_default_and_anchor [(1, 10); (2, 20)] 15) H).
Defined.

Lemma mean_singleton (x : Q) : mean [x] == x.
Proof. unfold mean, Qsum. simpl. field. Qed.

Lemma impc_single_eq (b s target : Q) :
  impc [(b, s)] target = liner_solve 0 0 (mean [s]) (mean [b]) target.
Proof.
  unfold impc.
  assert (Hproc : increasing_subsequence (aggregate_near_sample (sorted [(b, s)]))
                  = [(mean [b], mean [s])]) by reflexivity.
  rewrite Hproc. simpl.
  destruct (Qltb (mean [s]) target); reflexivity.
Qed.

(** X9: with a single observation [(bid, spend)] in the history, the
    solver scales the bid in proportion to the target: the answer is
    [bid * target / spend] when the spend is at least 1e-6 in absolute
    value, and half the bid when it is below. *)
Theorem impc_single_sample (b s target : Q) :
  (1 # 1000000 <= Qabs s -> impc [(b, s)] target == b * target / s)
  /\ (Qabs s < 1 # 1000000 -> impc [(b, s)] target == b / 2).
Proof.
  rewrite impc_single_eq. unfold liner_solve.
  assert (Habs : Qabs (0 - mean [s]) == Qabs s).
  { rewrite mean_singleton.
    setoid_replace (0 - s) with (- s) by ring. apply Qabs_opp. }
  split; intros Hs.
  - assert (Hb : Qltb (Qabs (0 - mean [s])) (1 # 1000000) = false).
    { apply Qltb_false. rewrite Habs. exact Hs. }
    rewrite Hb. rewrite !mean_singleton.
    assert (Hne : ~ s == 0).
    { intros H0. rewrite H0 in Hs. revert Hs. vm_compute.
      intros H. apply H. reflexivity. }
    field. exact Hne.
  - assert (Hb : Qltb (Qabs (0 - mean [s])) (1 # 1000000) = true).
    { apply Qltb_true. rewrite Habs. exact Hs. }
    rewrite Hb. rewrite mean_singleton. field.
Qed.

Lemma impc_single_sample_witness :
  1 # 1000000 <= Qabs 10 /\ impc [(1, 10)] 15 == 1 * 15 / 10.
Proof.
  assert (H : 1 # 1000000 <= Qabs 10) by (vm_compute; discriminate).
  split; [exact H|]. exact (proj1 (impc_single_sample 1 10 15) H).
Defined.

(** ** The bounded history of IMPCBudgetBidder *)

Lemma slice_last_zero (A : Type) (l : list A) : slice_last 0 l = l.
Proof.
  unfold slice_last. simpl.
  destruct (length l); reflexivity.
Qed.

Lemma slice_last_length (A : Type) (m : Z) (l : list A) :
  (0 < m)%Z -> length (slice_last m l) = Nat.min (Z.to_nat m) (length l).
Proof.
  intros Hm. unfold slice_last.
  replace (- m <? 0)%Z with true by (symmetry; apply Z.ltb_lt; lia).
  rewrite length_skipn. lia.
Qed.

Lemma slice_last_keeps_last (A : Type) (m : Z) (l : list A) (x d : A) :
  (0 <= m)%Z -> last (slice_last m (l ++ [x])) d = x.
Proof.
  intros Hm.
  destruct (Z.eq_dec m 0) as [-> | Hne].
  - rewrite slice_last_zero. apply last_last.
  - unfold slice_last.
    replace (- m <? 0)%Z with true by (symmetry; apply Z.ltb_lt; lia).
    rewrite length_app. simpl.
    set (k := Z.to_nat (Z.max (Z.of_nat (length l + 1) + - m) 0)).
    assert (Hk : (k <= length l)%nat) by (subst k; lia).
    rewrite skipn_app.
    replace (k - length l)%nat with 0%nat by lia.
    simpl. apply last_last.
Qed.

Section IMPCHistory.
Import IMPCBudgetBidder.

Lemma charge_boundary (self : t) (price : Q) (cur_round : Z) (ctr value : Q) :
  rounds_per_step self <> 0%Z ->
  (cur_round mod rounds_per_step self = 0)%Z ->
  charge self price cur_round ctr value
  = Returned
      (Build (budget self) (spending self + price)
         (rounds_per_step self) (rounds_per_iter self)
         (target_step_spending self)
         (slice_last (memory self)
            (bid2spend_history self ++ [(roi_bid self, step_spending self + price)]))
         (bid_step self)
         (calc_roi_bid (at_boundary self price) (target_step_spending self))
         0 (memory self)).
Proof.
  intros Hrps Hmod. unfold charge. simpl.
  apply Z.eqb_neq in Hrps. rewrite Hrps.
  apply Z.eqb_eq in Hmod. rewrite Hmod. reflexivity.
Qed.

Lemma charge_inside (self : t) (price : Q) (cur_round : Z) (ctr value : Q) :
  rounds_per_step self = 0%Z
  \/ (cur_round mod rounds_per_step self <> 0)%Z ->
  state_of (charge self price cur_round ctr value)
  = Build (budget self) (spending self + price)
      (rounds_per_step self) (rounds_per_iter self)
      (target_step_spending self) (bid2spend_history self) (bid_step self)
      (roi_bid self) (step_spending self + price) (memory self).
Proof.
  intros H. unfold charge. simpl.
  destruct (rounds_per_step self =? 0)%Z eqn:Hrps; [reflexivity|].
  destruct H as [H | H]; [apply Z.eqb_neq in Hrps; contradiction|].
  apply Z.eqb_neq in H. rewrite H. reflexivity.
Qed.

Lemma charge_history_bound (self : t) (price : Q) (cur_round : Z) (ctr value : Q) :
  (0 < memory self)%Z ->
  (length (bid2spend_history self) <= Z.to_nat (memory self))%nat ->
  (length (bid2spend_history (state_of (charge self price cur_round ctr value)))
   <= Z.to_nat (memory self))%nat.
Proof.
  intros Hm Hlen.
  destruct (Z.eq_dec (rounds_per_step self) 0) as [Hz | Hnz].
  - rewrite charge_inside by (left; exact Hz). exact Hlen.
  - destruct (Z.eq_dec (cur_round mod rounds_per_step self) 0) as [Hb | Hb].
    + rewrite charge_boundary by assumption. simpl.
      rewrite slice_last_length by exact Hm. lia.
    + rewrite charge_inside by (right; exact Hb). exact Hlen.
Qed.

End IMPCHistory.

Lemma IMPC_charges_reachable (fresh self : IMPCBudgetBidder.t)
    (calls : list charge_call) :
  IMPCRun.reachable fresh self ->
  IMPCRun.reachable fresh (IMPC_charges self calls).
Proof.
  revert self. induction calls as [|[[[price r] ctr] value] calls IH];
    intros self Hreach; simpl; [exact Hreach|].
  apply IH. eapply IMPCRun.reach_step; [exact Hreach|].
  apply IMPCRun.step_charge.
Qed.

(** X10: an IMPCBudgetBidder (or BidCapBidder) constructed with
    [memory > 0] never holds more than [memory] samples in
    [bid2spend_history], whatever [charge], [update] and [reset] calls it
    receives. *)
Theorem IMPC_history_bounded
    (budget : Q) (rounds_per_iter rounds_per_step : Z) (bid_step : Q) (memory : Z)
    (fresh self : IMPCBudgetBidder.t) :
  (0 < memory)%Z ->
  IMPCBudgetBidder.init budget rounds_per_iter rounds_per_step bid_step memory
    = Ok fresh ->
  IMPCRun.reachable fresh self \/ BidCapRun.reachable fresh self ->
  (length (IMPCBudgetBidder.bid2spend_history self) <= Z.to_nat memory)%nat.
Proof.
  intros Hm Hinit Hreach. apply init_fresh in Hinit.
  assert (Hinv : IMPCBudgetBidder.memory self = memory
                 /\ (length (IMPCBudgetBidder.bid2spend_history self)
                     <= Z.to_nat memory)%nat).
  { destruct Hreach as [Hreach | Hreach];
      induction Hreach as [|self self' _ [IHm IHl] Hstep].
    - subst fresh. simpl. split; [reflexivity|lia].
    - destruct Hstep.
      + pose proof (charge_config self price cur_round ctr value) as Hc.
        apply (f_equal snd) in Hc. simpl in Hc. split; [congruence|].
        rewrite <- IHm in *. apply charge_history_bound; assumption.
      + split; assumption.
      + split; [exact IHm | simpl; lia].
    - subst fresh. simpl. split; [reflexivity|lia].
    - destruct Hstep.
      + pose proof (BidCap_charge_config self price cur_round ctr value) as Hc.
        apply (f_equal snd) in Hc. simpl in Hc. split; [congruence|].
        rewrite <- IHm in *.
        pose proof (charge_history_bound self price cur_round ctr value Hm IHl)
          as Hb.
        unfold BidCapBidder.charge.
        destruct (IMPCBudgetBidder.charge self price cur_round ctr value);
          exact Hb.
      + split; assumption.
      + split; [exact IHm | simpl; lia]. }
  apply Hinv.
Qed.

Lemma IMPC_history_bounded_witness :
  let fresh := IMPCBudgetBidder.Build 10 0 1 4 (10 # 4) [] (1 # 10) 1 0 2 in
  let self := IMPC_charges fresh [(1, 1%Z, 1, 1); (1, 2%Z, 1, 1); (1, 3%Z, 1, 1)] in
  (0 < 2)%Z
  /\ IMPCBudgetBidder.init 10 4 1 (1 # 10) 2 = Ok fresh
  /\ IMPCRun.reachable fresh self
  /\ (length (IMPCBudgetBidder.bid2spend_history self) <= Z.to_nat 2)%nat.
Proof.
  intros fresh self.
  assert (Hm : (0 < 2)%Z) by lia.
  assert (Hinit : IMPCBudgetBidder.init 10 4 1 (1 # 10) 2 = Ok fresh)
    by reflexivity.
  assert (Hreach : IMPCRun.reachable fresh self).
  { apply IMPC_charges_reachable. apply IMPCRun.reach_fresh. }
  split; [exact Hm|]. split; [exact Hinit|]. split; [exact Hreach|].
  exact (IMPC_history_bounded 10 4 1 (1 # 10) 2 fresh self Hm Hinit
           (or_introl Hreach)).
Defined.

(** X11: at a step boundary, [charge] records the sample
    [(roi_bid, step_spending + price)] with the multiplier that was in
    force during the step (not the new one) as the newest history entry,
    and clears [step_spending]; with [memory = 0] the slice [[-0:]] keeps
    the whole list, so the history grows by one entry and is never cut. *)
Theorem IMPC_charge_records_step
    (self self' : IMPCBudgetBidder.t) (price : Q) (cur_round : Z) (ctr value : Q) :
  IMPCBudgetBidder.rounds_per_step self <> 0%Z ->
  (cur_round mod IMPCBudgetBidder.rounds_per_step self = 0)%Z ->
  (0 <= IMPCBudgetBidder.memory self)%Z ->
  IMPCBudgetBidder.charge self price cur_round ctr value = Returned self' ->
  last (IMPCBudgetBidder.bid2spend_history self') (0, 0)
  = (IMPCBudgetBidder.roi_bid self, IMPCBudgetBidder.step_spending self + price)
  /\ IMPCBudgetBidder.step_spending self' = 0
  /\ (IMPCBudgetBidder.memory self = 0%Z ->
      IMPCBudgetBidder.bid2spend_history self'
      = IMPCBudgetBidder.bid2spend_history self
          ++ [(IMPCBudgetBidder.roi_bid self,
               IMPCBudgetBidder.step_spending self + price)]).
Proof.
  intros Hrps Hmod Hmem Hret.
  rewrite charge_boundary in Hret by assumption.
  injection Hret as <-. simpl.
  split; [apply slice_last_keeps_last; exact Hmem|].
  split; [reflexivity|].
  intros ->. apply slice_last_zero.
Qed.

Lemma IMPC_charge_records_step_witness :
  let self := IMPCBudgetBidder.Build 10 0 2 4 (20 # 4) [(1, 3)] (1 # 10)
                (11 # 10) 2 0 in
  exists self',
    IMPCBudgetBidder.charge self 5 4 1 1 = Returned self'
    /\ last (IMPCBudgetBidder.bid2spend_history self') (0, 0) = (11 # 10, 2 + 5)
    /\ length (IMPCBudgetBidder.bid2spend_history self') = 2%nat.
Proof.
  intros self.
  assert (Hrps : IMPCBudgetBidder.rounds_per_step self <> 0%Z) by discriminate.
  assert (Hmod : (4 mod IMPCBudgetBidder.rounds_per_step self = 0)%Z)
    by reflexivity.
  assert (Hmem : (0 <= IMPCBudgetBidder.memory self)%Z) by (simpl; lia).
  eexists. split; [reflexivity|].
  destruct (IMPC_charge_records_step self _ 5 4 1 1 Hrps Hmod Hmem eq_refl)
    as (Hlast & _ & Hgrow).
  split; [exact Hlast|].
  rewrite (Hgrow eq_refl). reflexivity.
Defined.

(** ** Spending over a sequence of charges *)

(** X12: over any sequence of [charge] calls on an IMPCBudgetBidder,
    whatever the round indices (calls that raise included), [spending] is
    the running sum the code forms: the prices added one after the other,
    in call order, to the spending before the first call; the budget is
    not changed. *)
Theorem IMPC_charges_spending
    (self : IMPCBudgetBidder.t) (calls : list charge_call) :
  IMPCBudgetBidder.spending (IMPC_charges self calls)
  = fold_left Qplus (map price_of calls) (IMPCBudgetBidder.spending self)
  /\ IMPCBudgetBidder.budget (IMPC_charges self calls)
     = IMPCBudgetBidder.budget self.
Proof.
  revert self. induction calls as [|[[[price r] ctr] value] calls IH];
    intros self; simpl.
  - split; reflexivity.
  - destruct (IH (state_of (IMPCBudgetBidder.charge self price r ctr value)))
      as [Hs Hb].
    split.
    + rewrite Hs, charge_spending. reflexivity.
    + rewrite Hb.
      pose proof (charge_config self price r ctr value) as Hc.
      apply (f_equal (fun c => fst (fst (fst (fst (fst c)))))) in Hc.
      exact Hc.
Qed.

(** ** BidCapBidder: the step interval *)

Lemma BidCap_charge_roi_bid_value
    (self : IMPCBudgetBidder.t) (price : Q) (cur_round : Z) (ctr value : Q) :
  IMPCBudgetBidder.roi_bid
    (state_of (BidCapBidder.charge self price cur_round ctr value))
  = if (IMPCBudgetBidder.rounds_per_step self =? 0)%Z
    then IMPCBudgetBidder.roi_bid self
    else if (cur_round mod IMPCBudgetBidder.rounds_per_step self =? 0)%Z
         then minimum
                (IMPCBudgetBidder.calc_roi_bid
                   (IMPCBudgetBidder.at_boundary self price)
                   (IMPCBudgetBidder.target_step_spending self)) 1
         else minimum (IMPCBudgetBidder.roi_bid self) 1.
Proof.
  unfold BidCapBidder.charge, IMPCBudgetBidder.charge. simpl.
  destruct (IMPCBudgetBidder.rounds_per_step self =? 0)%Z; [reflexivity|].
  destruct (cur_round mod _ =? 0)%Z; reflexivity.
Qed.

(** X13: for a BidCapBidder whose multiplier is at most 1 (as it is in
    every state the controller reaches) and whose step size is not
    negative, [roi_bid] after one [charge] lies between [roi_bid - bid_step]
    and [roi_bid + bid_step], the two bounds as the code computes them: the
    cap at 1 never takes the multiplier below the lower bound. *)
Theorem BidCap_charge_roi_bid_interval
    (self : IMPCBudgetBidder.t) (price : Q) (cur_round : Z) (ctr value : Q) :
  0 <= IMPCBudgetBidder.bid_step self ->
  IMPCBudgetBidder.roi_bid self <= 1 ->
  IMPCBudgetBidder.roi_bid self - IMPCBudgetBidder.bid_step self
  <= IMPCBudgetBidder.roi_bid
       (state_of (BidCapBidder.charge self price cur_round ctr value))
  <= IMPCBudgetBidder.roi_bid self + IMPCBudgetBidder.bid_step self.
Proof.
  intros Hs Hroi. rewrite BidCap_charge_roi_bid_value.
  pose proof (calc_roi_bid_bounds (IMPCBudgetBidder.at_boundary self price)
                (IMPCBudgetBidder.target_step_spending self) Hs) as Hb.
  change (IMPCBudgetBidder.roi_bid (IMPCBudgetBidder.at_boundary self price))
    with (IMPCBudgetBidder.roi_bid self) in Hb.
  change (IMPCBudgetBidder.bid_step (IMPCBudgetBidder.at_boundary self price))
    with (IMPCBudgetBidder.bid_step self) in Hb.
  set (c := IMPCBudgetBidder.calc_roi_bid _ _) in *. clearbody c.
  destruct (IMPCBudgetBidder.rounds_per_step self =? 0)%Z; [lra|].
  destruct (cur_round mod _ =? 0)%Z; unfold minimum; qcases; lra.
Qed.

Lemma BidCap_charge_roi_bid_interval_witness :
  let self := IMPCBudgetBidder.Build 10 0 2 4 (20 # 4) [] (1 # 10) 1 0 3 in
  0 <= IMPCBudgetBidder.bid_step self
  /\ IMPCBudgetBidder.roi_bid self <= 1
  /\ IMPCBudgetBidder.roi_bid self - IMPCBudgetBidder.bid_step self
     <= IMPCBudgetBidder.roi_bid
          (state_of (BidCapBidder.charge self 0 2 1 1))
     <= IMPCBudgetBidder.roi_bid self + IMPCBudgetBidder.bid_step self.
Proof.
  intros self.
  assert (H1 : 0 <= IMPCBudgetBidder.bid_step self) by (vm_compute; discriminate).
  assert (H2 : IMPCBudgetBidder.roi_bid self <= 1) by (vm_compute; discriminate).
  split; [exact H1|]. split; [exact H2|].
  exact (BidCap_charge_roi_bid_interval self 0 2 1 1 H1 H2).
Defined.

(** ** SPBBidder *)

Section SPBCharge.
Import SPBBidder.

Lemma SPB_charge_roi_bid_value
    (self : t) (price : Q) (cur_round : Z) (ctr value : Q) :
  let b := base self in
  let rps := IMPCBudgetBidder.rounds_per_step b in
  let rpi := IMPCBudgetBidder.rounds_per_iter b in
  IMPCBudgetBidder.roi_bid (base (state_of (charge self price cur_round ctr value)))
  = if (rps =? 0)%Z then IMPCBudgetBidder.roi_bid b
    else if (cur_round mod rps =? 0)%Z then
      if Qltb 0 (optimal_budget self)
      then IMPCBudgetBidder.calc_roi_bid (IMPCBudgetBidder.at_boundary b price)
             (optimal_budget self * inject_Z rps / inject_Z rpi)
      else if (rpi =? 0)%Z then IMPCBudgetBidder.roi_bid b
      else minimum
             (IMPCBudgetBidder.calc_roi_bid (IMPCBudgetBidder.at_boundary b price)
                (IMPCBudgetBidder.budget b * inject_Z rps / inject_Z rpi))
             (explore_bid_max self)
    else IMPCBudgetBidder.roi_bid b.
Proof.
  cbv zeta. unfold charge. simpl.
  destruct (IMPCBudgetBidder.rounds_per_step (base self) =? 0)%Z; [reflexivity|].
  destruct (cur_round mod _ =? 0)%Z; [|reflexivity].
  destruct (Qltb 0 (optimal_budget self)); [reflexivity|].
  destruct (IMPCBudgetBidder.rounds_per_iter (base self) =? 0)%Z; reflexivity.
Qed.

Lemma SPB_charge_keeps_histories
    (self : t) (price : Q) (cur_round : Z) (ctr value : Q) :
  let self' := state_of (charge self price cur_round ctr value) in
  spend_history self' = spend_history self
  /\ value_history self' = value_history self
  /\ optimal_budget self' = optimal_budget self.
Proof.
  cbv zeta. unfold charge. simpl.
  destruct (IMPCBudgetBidder.rounds_per_step (base self) =? 0)%Z;
    [repeat split|].
  destruct (cur_round mod _ =? 0)%Z; [|repeat split].
  destruct (Qltb 0 (optimal_budget self)); [repeat split|].
  destruct (IMPCBudgetBidder.rounds_per_iter (base self) =? 0)%Z; repeat split.
Qed.

End SPBCharge.

(** X14: for an SPBBidder with a step size that is not negative, one
    [charge] never takes [roi_bid] above [roi_bid + bid_step] as the code
    computes it; while a fitted optimal budget is in force
    ([optimal_budget > 0]) it does not take it below the computed
    [roi_bid - bid_step] either. *)
Theorem SPB_charge_roi_bid_interval
    (self : SPBBidder.t) (price : Q) (cur_round : Z) (ctr value : Q) :
  0 <= IMPCBudgetBidder.bid_step (SPBBidder.base self) ->
  let roi := IMPCBudgetBidder.roi_bid (SPBBidder.base self) in
  let step := IMPCBudgetBidder.bid_step (SPBBidder.base self) in
  let roi' := IMPCBudgetBidder.roi_bid
                (SPBBidder.base
                   (state_of (SPBBidder.charge self price cur_round ctr value))) in
  roi' <= roi + step
  /\ (0 < SPBBidder.optimal_budget self -> roi - step <= roi').
Proof.
  intros Hs roi step roi'. subst roi step roi'.
  rewrite SPB_charge_roi_bid_value. cbv zeta.
  assert (Hb : forall target,
    IMPCBudgetBidder.roi_bid (SPBBidder.base self)
      - IMPCBudgetBidder.bid_step (SPBBidder.base self)
    <= IMPCBudgetBidder.calc_roi_bid
         (IMPCBudgetBidder.at_boundary (SPBBidder.base self) price) target
    <= IMPCBudgetBidder.roi_bid (SPBBidder.base self)
       + IMPCBudgetBidder.bid_step (SPBBidder.base self)).
  { intros target.
    apply (calc_roi_bid_bounds
             (IMPCBudgetBidder.at_boundary (SPBBidder.base self) price)
             target Hs). }
  set (rps := IMPCBudgetBidder.rounds_per_step (SPBBidder.base self)) in *.
  set (rpi := IMPCBudgetBidder.rounds_per_iter (SPBBidder.base self)) in *.
  pose proof (Hb (SPBBidder.optimal_budget self * inject_Z rps / inject_Z rpi))
    as Hb1.
  pose proof (Hb (IMPCBudgetBidder.budget (SPBBidder.base self)
                  * inject_Z rps / inject_Z rpi)) as Hb2.
  clear Hb.
  set (c1 := IMPCBudgetBidder.calc_roi_bid _ _) in Hb1 |- *. clearbody c1.
  set (c2 := IMPCBudgetBidder.calc_roi_bid _ _) in Hb2 |- *. clearbody c2.
  split.
  - destruct (rps =? 0)%Z; [lra|].
    destruct (cur_round mod rps =? 0)%Z; [|lra].
    destruct (Qltb 0 (SPBBidder.optimal_budget self)); [lra|].
    destruct (rpi =? 0)%Z; [lra|].
    pose proof (minimum_le_l c2 (SPBBidder.explore_bid_max self)). lra.
  - intros Hopt. apply Qltb_true in Hopt. rewrite Hopt.
    destruct (rps =? 0)%Z; [lra|].
    destruct (cur_round mod rps =? 0)%Z; lra.
Qed.

Lemma SPB_charge_roi_bid_interval_witness :
  let self := SPBBidder.Build
                (IMPCBudgetBidder.Build 10 0 2 4 (20 # 4) [] (1 # 10) 1 0 3)
                5 2 3 [3; 4] [4; 5] in
  0 <= IMPCBudgetBidder.bid_step (SPBBidder.base self)
  /\ 0 < SPBBidder.optimal_budget self
  /\ IMPCBudgetBidder.roi_bid (SPBBidder.base self)
     - IMPCBudgetBidder.bid_step (SPBBidder.base self)
     <= IMPCBudgetBidder.roi_bid
          (SPBBidder.base (state_of (SPBBidder.charge self 1 2 1 1))).
Proof.
  intros self.
  assert (H1 : 0 <= IMPCBudgetBidder.bid_step (SPBBidder.base self))
    by (vm_compute; discriminate).
  assert (H2 : 0 < SPBBidder.optimal_budget self) by reflexivity.
  split; [exact H1|]. split; [exact H2|].
  exact (proj2 (SPB_charge_roi_bid_interval self 1 2 1 1 H1) H2).
Defined.

(** X15: while no fitted optimal budget is in force ([optimal_budget <= 0],
    the value -1), every [charge] at a step boundary that returns leaves
    [roi_bid] at or below [explore_bid_max]. *)
Theorem SPB_exploration_cap
    (self self' : SPBBidder.t) (price : Q) (cur_round : Z) (ctr value : Q) :
  SPBBidder.optimal_budget self <= 0 ->
  IMPCBudgetBidder.rounds_per_step (SPBBidder.base self) <> 0%Z ->
  (cur_round mod IMPCBudgetBidder.rounds_per_step (SPBBidder.base self) = 0)%Z ->
  SPBBidder.charge self price cur_round ctr value = Returned self' ->
  IMPCBudgetBidder.roi_bid (SPBBidder.base self') <= SPBBidder.explore_bid_max self
  /\ SPBBidder.explore_bid_max self' = SPBBidder.explore_bid_max self.
Proof.
  intros Hopt Hrps Hmod Hret.
  pose proof (SPB_charge_roi_bid_value self price cur_round ctr value) as Hv.
  pose proof (SPB_charge_config self price cur_round ctr value) as Hc.
  apply (f_equal snd) in Hc. simpl in Hc.
  cbv zeta in Hv. rewrite Hret in Hv, Hc. simpl in Hv, Hc.
  split; [|exact Hc]. rewrite Hv.
  apply Z.eqb_neq in Hrps. rewrite Hrps.
  apply Z.eqb_eq in Hmod. rewrite Hmod.
  apply Qltb_false in Hopt. rewrite Hopt.
  destruct (IMPCBudgetBidder.rounds_per_iter (SPBBidder.base self) =? 0)%Z eqn:Hrpi.
  - exfalso. unfold SPBBidder.charge in Hret. simpl in Hret.
    rewrite Hrps, Hmod, Hopt, Hrpi in Hret. discriminate Hret.
  - apply minimum_le_r.
Qed.

Lemma SPB_exploration_cap_witness :
  let self := SPBBidder.Build
                (IMPCBudgetBidder.Build 10 0 2 4 (20 # 4) [] (1 # 2) 1 0 3)
                5 (12 # 10) (-1) [] [] in
  exists self',
    SPBBidder.charge self 0 2 1 1 = Returned self'
    /\ IMPCBudgetBidder.roi_bid (SPBBidder.base self') <= 12 # 10.
Proof.
  intros self. eexists. split; [reflexivity|].
  refine (proj1 (SPB_exploration_cap self _ 0 2 1 1 _ _ _ eq_refl)).
  - vm_compute. discriminate.
  - discriminate.
  - reflexivity.
Defined.

Lemma slice_last_same_length (A B : Type) (m : Z) (a : list A) (b : list B) :
  length a = length b -> length (slice_last m a) = length (slice_last m b).
Proof.
  intros H. unfold slice_last. rewrite !length_skipn, H. reflexivity.
Qed.

Lemma masked_length_mismatch (xs : list Q) (mask : list bool) :
  length xs <> length mask -> masked xs mask = None.
Proof.
  revert mask. induction xs as [|x xs IH]; intros [|m mask] Hlen; simpl in *;
    try reflexivity; try congruence.
  rewrite IH by congruence. reflexivity.
Qed.

Section SPBHistories.
Import SPBBidder.
Variable curve_fit : list Q -> list Q -> option (Q * Q).

(** The property of the two per-iteration histories that [update] keeps. *)
Lemma record_iteration_histories (self extended : t) (contexts : bool)
    (prices : list Q) (sum_values : Q) (won_mask : list bool) :
  record_iteration self contexts prices sum_values won_mask = Some extended ->
  length (spend_history self) = length (value_history self) ->
  spb_memory extended = spb_memory self
  /\ length (spend_history extended) = length (value_history extended)
  /\ ((0 < spb_memory self)%Z ->
      (length (spend_history self) <= Z.to_nat (spb_memory self))%nat ->
      (length (spend_history extended) <= Z.to_nat (spb_memory self))%nat).
Proof.
  unfold record_iteration. intros Hrec Hlen.
  destruct contexts.
  - destruct (masked prices won_mask) as [won|]; [|discriminate].
    injection Hrec as <-. simpl.
    split; [reflexivity|]. split.
    + apply slice_last_same_length. rewrite !length_app, Hlen. reflexivity.
    + intros Hm _. rewrite slice_last_length by exact Hm. lia.
  - injection Hrec as <-. split; [reflexivity|]. split; [exact Hlen|].
    intros _ H. exact H.
Qed.

Lemma SPB_step_histories (m : Z) (self self' : t) :
  SPBRun.step curve_fit self self' ->
  spb_memory self = m
  /\ length (spend_history self) = length (value_history self)
  /\ ((0 < m)%Z -> (length (spend_history self) <= Z.to_nat m)%nat) ->
  spb_memory self' = m
  /\ length (spend_history self') = length (value_history self')
  /\ ((0 < m)%Z -> (length (spend_history self') <= Z.to_nat m)%nat).
Proof.
  intros Hstep (Hm & Hlen & Hbound). destruct Hstep.
  - destruct (SPB_charge_keeps_histories self price cur_round ctr value)
      as (Hs & Hv & _).
    pose proof (SPB_charge_config self price cur_round ctr value) as Hc.
    apply (f_equal (fun c => snd (fst c))) in Hc. simpl in Hc.
    cbv zeta in Hs, Hv. rewrite Hs, Hv, Hc. repeat split; assumption.
  - unfold update.
    destruct (record_iteration self contexts prices sum_values won_mask)
      as [extended|] eqn:Hrec; simpl.
    + destruct (record_iteration_histories _ _ _ _ _ _ Hrec Hlen)
        as (Hm' & Hlen' & Hbound').
      destruct (refit_keeps curve_fit extended) as (Hs & Hv & _).
      pose proof (SPB_update_config curve_fit self contexts prices sum_values
                    won_mask) as Hc.
      unfold update in Hc. rewrite Hrec in Hc. simpl in Hc.
      apply (f_equal (fun c => snd (fst c))) in Hc. simpl in Hc.
      rewrite Hs, Hv, Hc. split; [exact Hm|]. split; [exact Hlen'|].
      intros Hpos. rewrite Hm in Hbound'. apply Hbound'; [exact Hpos|].
      apply Hbound. exact Hpos.
    + repeat split; assumption.
  - simpl. split; [exact Hm|]. split; [reflexivity|]. intros _. lia.
Qed.

End SPBHistories.

(** X16: in every state an SPBBidder reaches from construction, the spend
    history and the value history have the same length (the curve fit is
    always given as many spends as values), and with [spb_memory > 0]
    neither holds more than [spb_memory] entries. *)
Theorem SPB_histories_aligned
    (curve_fit : list Q -> list Q -> option (Q * Q))
    (budget : Q) (rounds_per_iter rounds_per_step : Z) (bid_step : Q)
    (memory spb_memory : Z) (explore_bid_max : Q) (fresh self : SPBBidder.t) :
  SPBBidder.init budget rounds_per_iter rounds_per_step bid_step memory
    spb_memory explore_bid_max = Ok fresh ->
  SPBRun.reachable curve_fit fresh self ->
  length (SPBBidder.spend_history self) = length (SPBBidder.value_history self)
  /\ ((0 < spb_memory)%Z ->
      (length (SPBBidder.spend_history self) <= Z.to_nat spb_memory)%nat).
Proof.
  intros Hinit Hreach.
  assert (Hinv : SPBBidder.spb_memory self = spb_memory
                 /\ length (SPBBidder.spend_history self)
                    = length (SPBBidder.value_history self)
                 /\ ((0 < spb_memory)%Z ->
                     (length (SPBBidder.spend_history self)
                      <= Z.to_nat spb_memory)%nat)).
  { induction Hreach as [|self self' _ IH Hstep].
    - unfold SPBBidder.init in Hinit.
      destruct (IMPCBudgetBidder.init budget rounds_per_iter rounds_per_step
                  bid_step memory); [|discriminate].
      injection Hinit as <-. simpl. split; [reflexivity|].
      split; [reflexivity|]. intros _. lia.
    - apply (SPB_step_histories curve_fit spb_memory self self' Hstep IH). }
  split; apply Hinv.
Qed.

Lemma SPB_histories_aligned_witness :
  let fit := fun (_ _ : list Q) => Some (1, 1 # 2) in
  let fresh := SPBBidder.Build
                 (IMPCBudgetBidder.Build 10 0 2 4 (20 # 4) [] (1 # 10) 1 0 3)
                 1 2 (-1) [] [] in
  let self := state_of (SPBBidder.update fit
                (state_of (SPBBidder.update fit fresh true [1; 2] 6 [true; false]))
                true [3; 4] 7 [true; true]) in
  SPBBidder.init 10 4 2 (1 # 10) 3 1 2 = Ok fresh
  /\ SPBRun.reachable fit fresh self
  /\ length (SPBBidder.spend_history self) = length (SPBBidder.value_history self)
  /\ (length (SPBBidder.spend_history self) <= Z.to_nat 1)%nat.
Proof.
  intros fit fresh self.
  assert (Hinit : SPBBidder.init 10 4 2 (1 # 10) 3 1 2 = Ok fresh) by reflexivity.
  assert (Hreach : SPBRun.reachable fit fresh self).
  { eapply SPBRun.reach_step; [|apply SPBRun.step_update].
    eapply SPBRun.reach_step; [|apply SPBRun.step_update].
    apply SPBRun.reach_fresh. }
  destruct (SPB_histories_aligned fit 10 4 2 (1 # 10) 3 1 2 fresh self Hinit Hreach)
    as [Heq Hle].
  split; [exact Hinit|]. split; [exact Hreach|]. split; [exact Heq|].
  apply Hle. lia.
Defined.

(** X17: an [update] call that passes [contexts] with a [won_mask] whose
    length differs from that of [prices] raises [IndexError] and leaves the
    controller exactly as it was: nothing is appended, [optimal_budget] is
    not refitted and [spending] is not reset. *)
Theorem SPB_update_mask_mismatch
    (curve_fit : list Q -> list Q -> option (Q * Q))
    (self : SPBBidder.t) (prices : list Q) (sum_values : Q)
    (won_mask : list bool) :
  length prices <> length won_mask ->
  SPBBidder.update curve_fit self true prices sum_values won_mask
  = Raised IndexError self.
Proof.
  intros Hlen. unfold SPBBidder.update, SPBBidder.record_iteration.
  rewrite (masked_length_mismatch prices won_mask Hlen). reflexivity.
Qed.

Lemma SPB_update_mask_mismatch_witness :
  let fit := fun (_ _ : list Q) => Some (1, 1 # 2) in
  let self := SPBBidder.Build
                (IMPCBudgetBidder.Build 10 7 2 4 (20 # 4) [] (1 # 10) 1 0 3)
                5 2 (-1) [3] [4] in
  length [1; 2] <> length [true]
  /\ SPBBidder.update fit self true [1; 2] 6 [true] = Raised IndexError self.
Proof.
  intros fit self.
  assert (H : length [1; 2] <> length [true]) by discriminate.
  split; [exact H|].
  exact (SPB_update_mask_mismatch fit self [1; 2] 6 [true] H).
Defined.

(** ** MPCBidder *)

Section MPCCharge.
Import MPCBidder.

Lemma MPC_charge_state (self : t) (price : Q) (cur_round : Z) (ctr value : Q) :
  state_of (charge self price cur_round ctr value)
  = let acc := accumulate self price ctr value in
    if (rounds_per_step self =? 0)%Z then acc
    else if (cur_round mod rounds_per_step self =? 0)%Z then adjust acc
    else acc.
Proof.
  unfold charge. cbv zeta.
  assert (Hrps : rounds_per_step (accumulate self price ctr value)
                 = rounds_per_step self).
  { unfold accumulate. destruct (Qltb 0 price); reflexivity. }
  rewrite Hrps.
  destruct (rounds_per_step self =? 0)%Z; [reflexivity|].
  destruct (cur_round mod _ =? 0)%Z; reflexivity.
Qed.

Lemma accumulate_keeps (self : t) (price ctr value : Q) :
  MPC_limits (accumulate self price ctr value) = MPC_limits self
  /\ roi_bid (accumulate self price ctr value) = roi_bid self
  /\ error_i (accumulate self price ctr value) = error_i self.
Proof.
  unfold accumulate. destruct (Qltb 0 price); repeat split.
Qed.

Lemma adjust_limits (self : t) : MPC_limits (adjust self) = MPC_limits self.
Proof.
  unfold adjust. cbv zeta.
  destruct (Qltb 0 (spending self) && _); reflexivity.
Qed.

Lemma adjust_roi_bid (self : t) :
  0 <= bid_step self ->
  bid_min self <= roi_bid self <= bid_max self ->
  bid_min self <= roi_bid (adjust self) <= bid_max self
  /\ roi_bid self - bid_step self <= roi_bid (adjust self)
     <= roi_bid self + bid_step self.
Proof.
  intros Hs Hr.
  assert (Hv : (exists control,
                  roi_bid (adjust self)
                  = minimum
                      (maximum
                         (minimum
                            (maximum (roi_bid self + control)
                               (roi_bid self - bid_step self))
                            (roi_bid self + bid_step self))
                         (bid_min self))
                      (bid_max self))
               \/ roi_bid (adjust self)
                  = minimum (bid_max self) (roi_bid self + bid_step self)).
  { unfold adjust. cbv zeta.
    destruct (Qltb 0 (spending self) && _).
    - left. eexists. reflexivity.
    - right. reflexivity. }
  destruct Hv as [[control Hv] | Hv]; rewrite Hv; clear Hv.
  - destruct (clamp_spec (roi_bid self + control)
                (roi_bid self - bid_step self) (roi_bid self + bid_step self)
                ltac:(lra)) as [[H1 ->] | [[H1 ->] | [H1 ->]]];
      match goal with
      | |- context [minimum (maximum ?x _) _] =>
          destruct (clamp_spec x (bid_min self) (bid_max self) ltac:(lra))
            as [[H2 ->] | [[H2 ->] | [H2 ->]]]
      end;
      split; lra.
  - unfold minimum.
    destruct (Qltb (roi_bid self + bid_step self) (bid_max self)) eqn:E;
      [apply Qltb_true in E | apply Qltb_false in E];
      split; lra.
Qed.

Lemma MPC_charge_limits (self : t) (price : Q) (cur_round : Z) (ctr value : Q) :
  MPC_limits (state_of (charge self price cur_round ctr value)) = MPC_limits self.
Proof.
  rewrite MPC_charge_state. cbv zeta.
  destruct (accumulate_keeps self price ctr value) as (Hl & _ & _).
  destruct (rounds_per_step self =? 0)%Z; [exact Hl|].
  destruct (cur_round mod _ =? 0)%Z; [|exact Hl].
  rewrite adjust_limits. exact Hl.
Qed.

Lemma MPC_charge_roi_bid (self : t) (price : Q) (cur_round : Z) (ctr value : Q) :
  0 <= bid_step self ->
  bid_min self <= roi_bid self <= bid_max self ->
  let self' := state_of (charge self price cur_round ctr value) in
  bid_min self <= roi_bid self' <= bid_max self
  /\ roi_bid self - bid_step self <= roi_bid self'
     <= roi_bid self + bid_step self.
Proof.
  intros Hs Hr. cbv zeta. rewrite MPC_charge_state. cbv zeta.
  destruct (accumulate_keeps self price ctr value) as (Hl & Hroi & _).
  unfold MPC_limits in Hl.
  assert (Hmin : bid_min (accumulate self price ctr value) = bid_min self)
    by congruence.
  assert (Hmax : bid_max (accumulate self price ctr value) = bid_max self)
    by congruence.
  assert (Hst : bid_step (accumulate self price ctr value) = bid_step self)
    by congruence.
  assert (Hsame : bid_min self <= roi_bid (accumulate self price ctr value)
                    <= bid_max self
                  /\ roi_bid self - bid_step self
                     <= roi_bid (accumulate self price ctr value)
                     <= roi_bid self + bid_step self).
  { rewrite Hroi. split; [exact Hr | lra]. }
  destruct (rounds_per_step self =? 0)%Z; [exact Hsame|].
  destruct (cur_round mod _ =? 0)%Z; [|exact Hsame].
  pose proof (adjust_roi_bid (accumulate self price ctr value)) as Ha.
  rewrite Hmin, Hmax, Hst, Hroi in Ha. apply Ha; assumption.
Qed.

Lemma MPC_update_keeps (self : t) (contexts : bool) (values : list Q)
    (sum_values : Q) (estimated_CTRs : list Q) (won_mask : list bool) :
  let self' := fst (update self contexts values sum_values estimated_CTRs
                      won_mask) in
  MPC_limits self' = MPC_limits self
  /\ roi_bid self' = roi_bid self
  /\ (error_p self', last_error_p self', error_i self', error_d self')
     = (error_p self, last_error_p self, error_i self, error_d self)
  /\ spending self' = 0
  /\ estimated_value self' = 0.
Proof.
  cbv zeta. unfold update.
  destruct contexts; [|repeat split].
  destruct (np_multiply estimated_CTRs values) as [products|]; [|repeat split].
  destruct (masked products won_mask) as [won|]; repeat split.
Qed.

End MPCCharge.

(** X18: an MPCBidder constructed with [bid_min <= 1 <= bid_max] and a
    step size that is not negative keeps [roi_bid] inside
    [[bid_min, bid_max]] in every state it reaches by [charge] and
    [update] calls, and from every such state one [charge] leaves
    [roi_bid] between [roi_bid - bid_step] and [roi_bid + bid_step], the
    two bounds as the code computes them. *)
Theorem MPC_roi_bid_in_range
    (budget : Q) (rounds_per_iter rounds_per_step : Z) (bid_step : Q) (memory : Z)
    (kp ki kd bid_min bid_max : Q) (self : MPCBidder.t) :
  0 <= bid_step -> bid_min <= 1 -> 1 <= bid_max ->
  MPCRun.reachable
    (MPCBidder.init budget rounds_per_iter rounds_per_step bid_step memory
       kp ki kd bid_min bid_max) self ->
  bid_min <= MPCBidder.roi_bid self <= bid_max
  /\ (forall price cur_round ctr value,
        MPCBidder.roi_bid self - bid_step
        <= MPCBidder.roi_bid
             (state_of (MPCBidder.charge self price cur_round ctr value))
        <= MPCBidder.roi_bid self + bid_step).
Proof.
  intros Hs Hmin Hmax Hreach.
  assert (Hinv : MPCBidder.MPC_limits self = (bid_min, bid_max, bid_step)
                 /\ bid_min <= MPCBidder.roi_bid self <= bid_max).
  { induction Hreach as [|self self' _ [IHl IHr] Hstep].
    - split; [reflexivity | simpl; lra].
    - assert (Hf : MPCBidder.bid_min self = bid_min
                   /\ MPCBidder.bid_max self = bid_max
                   /\ MPCBidder.bid_step self = bid_step).
      { unfold MPCBidder.MPC_limits in IHl. injection IHl as -> -> ->.
        repeat split. }
      destruct Hf as (Hfmin & Hfmax & Hfstep).
      destruct Hstep.
      + rewrite MPC_charge_limits. split; [exact IHl|].
        pose proof (MPC_charge_roi_bid self price cur_round ctr value) as Hc.
        rewrite Hfmin, Hfmax, Hfstep in Hc.
        apply Hc; assumption.
      + destruct (MPC_update_keeps self contexts values sum_values
                    estimated_CTRs won_mask) as (Hl & Hroi & _).
        cbv zeta in Hl, Hroi. rewrite Hl, Hroi. split; assumption. }
  destruct Hinv as [Hl Hr].
  unfold MPCBidder.MPC_limits in Hl. injection Hl as Hfmin Hfmax Hfstep.
  split; [exact Hr|].
  intros price cur_round ctr value.
  pose proof (MPC_charge_roi_bid self price cur_round ctr value) as Hc.
  rewrite Hfmin, Hfmax, Hfstep in Hc.
  apply Hc; assumption.
Qed.

Lemma MPC_roi_bid_in_range_witness :
  let fresh := MPCBidder.init 10 4 2 (1 # 10) 3 1 (1 # 10) 0 (1 # 2) 2 in
  let self := state_of (MPCBidder.charge fresh 3 2 (1 # 2) 10) in
  0 <= 1 # 10 /\ 1 # 2 <= 1 /\ 1 <= 2
  /\ MPCRun.reachable fresh self
  /\ 1 # 2 <= MPCBidder.roi_bid self <= 2.
Proof.
  intros fresh self.
  assert (H1 : 0 <= 1 # 10) by (vm_compute; discriminate).
  assert (H2 : 1 # 2 <= 1) by (vm_compute; discriminate).
  assert (H3 : 1 <= 2) by (vm_compute; discriminate).
  assert (Hreach : MPCRun.reachable fresh self).
  { eapply MPCRun.reach_step; [apply MPCRun.reach_fresh|].
    apply MPCRun.step_charge. }
  split; [exact H1|]. split; [exact H2|]. split; [exact H3|].
  split; [exact Hreach|].
  exact (proj1 (MPC_roi_bid_in_range 10 4 2 (1 # 10) 3 1 (1 # 10) 0 (1 # 2) 2
                  self H1 H2 H3 Hreach)).
Defined.

(** X19: [MPCBidder.charge] never lowers [spending]: a price above 0 is
    added, and a price of 0 or below leaves [spending] and
    [estimated_value] as they were (IMPCBudgetBidder adds any price). *)
Theorem MPC_charge_spending_monotone
    (self : MPCBidder.t) (price : Q) (cur_round : Z) (ctr value : Q) :
  let self' := state_of (MPCBidder.charge self price cur_round ctr value) in
  MPCBidder.spending self <= MPCBidder.spending self'
  /\ (price <= 0 ->
      MPCBidder.spending self' = MPCBidder.spending self
      /\ MPCBidder.estimated_value self' = MPCBidder.estimated_value self).
Proof.
  cbv zeta. rewrite MPC_charge_state. cbv zeta.
  assert (Hadj : forall s, MPCBidder.spending (MPCBidder.adjust s)
                           = MPCBidder.spending s
                           /\ MPCBidder.estimated_value (MPCBidder.adjust s)
                              = MPCBidder.estimated_value s).
  { intros s. unfold MPCBidder.adjust. cbv zeta.
    destruct (Qltb 0 (MPCBidder.spending s) && _); split; reflexivity. }
  assert (Hacc : MPCBidder.spending self
                 <= MPCBidder.spending (MPCBidder.accumulate self price ctr value)
                 /\ (price <= 0 ->
                     MPCBidder.accumulate self price ctr value = self)).
  { unfold MPCBidder.accumulate.
    destruct (Qltb 0 price) eqn:E;
      [apply Qltb_true in E | apply Qltb_false in E].
    - simpl. split; [lra|]. intros H. lra.
    - split; [lra | reflexivity]. }
  destruct Hacc as [Hle Hsame].
  destruct (Hadj (MPCBidder.accumulate self price ctr value)) as [Ha1 Ha2].
  split.
  - destruct (MPCBidder.rounds_per_step self =? 0)%Z; [exact Hle|].
    destruct (cur_round mod _ =? 0)%Z; [rewrite Ha1|]; exact Hle.
  - intros Hp. specialize (Hsame Hp).
    destruct (MPCBidder.rounds_per_step self =? 0)%Z;
      [rewrite Hsame; split; reflexivity|].
    destruct (cur_round mod _ =? 0)%Z;
      [rewrite Ha1, Ha2|]; rewrite Hsame; split; reflexivity.
Qed.

(** X20: at a step boundary where the predicted value
    [estimated_value * prediction_diff] exceeds a positive [spending] (the
    realized return on spend is above the target 1), [charge] takes the PID
    branch: [error_p] is the positive excess [value / spending - 1] and the
    integral term [error_i] strictly increases. *)
Theorem MPC_error_i_increases
    (self : MPCBidder.t) (price : Q) (cur_round : Z) (ctr value : Q) :
  let acc := MPCBidder.accumulate self price ctr value in
  let predicted := MPCBidder.estimated_value acc * MPCBidder.prediction_diff acc in
  MPCBidder.rounds_per_step self <> 0%Z ->
  (cur_round mod MPCBidder.rounds_per_step self = 0)%Z ->
  0 < MPCBidder.spending acc ->
  MPCBidder.spending acc < predicted ->
  let self' := state_of (MPCBidder.charge self price cur_round ctr value) in
  MPCBidder.error_p self' = predicted / MPCBidder.spending acc - 1
  /\ 0 < MPCBidder.error_p self'
  /\ MPCBidder.error_i self < MPCBidder.error_i self'
  /\ MPCBidder.last_error_p self' = MPCBidder.error_p self'.
Proof.
  intros acc predicted Hrps Hmod Hsp Hroi. cbv zeta.
  rewrite MPC_charge_state. cbv zeta. fold acc.
  apply Z.eqb_neq in Hrps. rewrite Hrps.
  apply Z.eqb_eq in Hmod. rewrite Hmod.
  assert (Hei : MPCBidder.error_i acc = MPCBidder.error_i self).
  { apply (accumulate_keeps self price ctr value). }
  assert (Hpos : 0 < predicted / MPCBidder.spending acc - 1).
  { assert (H : 1 < predicted / MPCBidder.spending acc).
    { apply Qlt_shift_div_l; lra. }
    lra. }
  unfold MPCBidder.adjust. cbv zeta. fold predicted.
  assert (Hc1 : Qltb 0 (MPCBidder.spending acc) = true) by (apply Qltb_true; lra).
  assert (Hc2 : Qltb 0 predicted = true) by (apply Qltb_true; lra).
  rewrite Hc1, Hc2. simpl. fold predicted.
  split; [reflexivity|]. split; [exact Hpos|].
  split; [rewrite Hei; lra | reflexivity].
Qed.

Lemma MPC_error_i_increases_witness :
  let self := MPCBidder.init 10 4 2 (1 # 10) 3 1 (1 # 10) 0 (1 # 2) 2 in
  let self' := state_of (MPCBidder.charge self 3 2 (1 # 2) 10) in
  MPCBidder.error_i self < MPCBidder.error_i self'.
Proof.
  intros self self'.
  refine (proj1 (proj2 (proj2
            (MPC_error_i_increases self 3 2 (1 # 2) 10 _ _ _ _)))).
  - discriminate.
  - reflexivity.
  - reflexivity.
  - reflexivity.
Defined.

Lemma record_values_prediction_diff (self : MPCBidder.t) (won sum_values : Q) :
  let self' := MPCBidder.record_values self won sum_values in
  MPCBidder.prediction_diff self' = 1
  \/ (1 < Qsum (MPCBidder.value_history self')
      /\ 1 < Qsum (MPCBidder.estimated_value_history self')
      /\ MPCBidder.prediction_diff self'
         = Qsum (MPCBidder.value_history self')
           / Qsum (MPCBidder.estimated_value_history self')).
Proof.
  cbv zeta. unfold MPCBidder.record_values. cbv zeta. simpl.
  destruct (Qltb 1 (Qsum (slice_last (MPCBidder.memory self)
                            (MPCBidder.value_history self ++ [sum_values]))))
    eqn:E1; simpl; [|left; reflexivity].
  destruct (Qltb 1 (Qsum (slice_last (MPCBidder.memory self)
                            (MPCBidder.estimated_value_history self ++ [won]))))
    eqn:E2; [|left; reflexivity].
  apply Qltb_true in E1, E2. right. repeat split; assumption.
Qed.

(** X21: [MPCBidder.update] clears [spending] and [estimated_value] and
    leaves [roi_bid] and the four PID error terms as they were, also when
    NumPy raises.  When it returns after recording an iteration,
    [prediction_diff] is either 1 or the ratio of the two history sums,
    both above 1, and so is always positive; with [contexts] absent it is
    not changed. *)
Theorem MPC_update_effects
    (self : MPCBidder.t) (contexts : bool) (values : list Q) (sum_values : Q)
    (estimated_CTRs : list Q) (won_mask : list bool) :
  let r := MPCBidder.update self contexts values sum_values estimated_CTRs
             won_mask in
  let self' := fst r in
  MPCBidder.spending self' = 0
  /\ MPCBidder.estimated_value self' = 0
  /\ MPCBidder.roi_bid self' = MPCBidder.roi_bid self
  /\ (MPCBidder.error_p self', MPCBidder.last_error_p self',
      MPCBidder.error_i self', MPCBidder.error_d self')
     = (MPCBidder.error_p self, MPCBidder.last_error_p self,
        MPCBidder.error_i self, MPCBidder.error_d self)
  /\ (contexts = true -> snd r = None ->
      0 < MPCBidder.prediction_diff self'
      /\ (MPCBidder.prediction_diff self' = 1
          \/ (1 < Qsum (MPCBidder.value_history self')
              /\ 1 < Qsum (MPCBidder.estimated_value_history self')
              /\ MPCBidder.prediction_diff self'
                 = Qsum (MPCBidder.value_history self')
                   / Qsum (MPCBidder.estimated_value_history self'))))
  /\ (contexts = false ->
      snd r = None
      /\ MPCBidder.prediction_diff self' = MPCBidder.prediction_diff self).
Proof.
  cbv zeta.
  destruct (MPC_update_keeps self contexts values sum_values estimated_CTRs
              won_mask) as (_ & Hroi & Herr & Hsp & Hev).
  cbv zeta in Hroi, Herr, Hsp, Hev.
  split; [exact Hsp|]. split; [exact Hev|]. split; [exact Hroi|].
  split; [exact Herr|]. split.
  - intros -> Hnone. unfold MPCBidder.update in *.
    destruct (MPCBidder.np_multiply estimated_CTRs values) as [products|];
      [|discriminate Hnone].
    destruct (masked products won_mask) as [won|]; [|discriminate Hnone].
    cbn [fst].
    pose proof (record_values_prediction_diff
                  (MPCBidder.clear_counters self) (Qsum won) sum_values) as Hpd.
    cbv zeta in Hpd. split; [|exact Hpd].
    destruct Hpd as [-> | (Hv & He & ->)]; [reflexivity|].
    apply Qlt_shift_div_l; lra.
  - intros ->. split; reflexivity.
Qed.

Lemma MPC_update_effects_witness :
  let self := MPCBidder.Build 10 7 2 4 (1 # 10) (3 # 2) 1 5 3 [2] [3]
                (1 # 2) 2 1 (1 # 10) 0 (1 # 4) (1 # 4) (1 # 2) 0 in
  let r := MPCBidder.update self true [10; 20] 4 [1 # 2; 1 # 4] [true; true] in
  snd r = None
  /\ 0 < MPCBidder.prediction_diff (fst r)
  /\ MPCBidder.prediction_diff (fst r) == 6 / 13.
Proof.
  intros self r.
  assert (Hnone : snd r = None) by reflexivity.
  split; [exact Hnone|]. split.
  - exact (proj1 (proj1 (proj2 (proj2 (proj2 (proj2
             (MPC_update_effects self true [10; 20] 4 [1 # 2; 1 # 4]
                [true; true]))))) eq_refl Hnone)).
  - vm_compute. reflexivity.
Defined.

(** ** Fresh controllers bid truthfully *)

(** X22: a freshly constructed IMPCBudgetBidder, SPBBidder or MPCBidder
    with a positive budget bids what TruthfulBidder bids,
    [value * estimated_CTR]: the multiplier starts at 1 and nothing has
    been spent. *)
Theorem fresh_controllers_bid_truthfully
    (budget : Q) (rounds_per_iter rounds_per_step : Z) (bid_step : Q) (memory : Z)
    (value : Q) (ctx : context) (estimated_CTR : Q) :
  0 < budget ->
  let truthful := TruthfulBidder.bid TruthfulBidder.init value ctx estimated_CTR in
  (forall fresh,
      IMPCBudgetBidder.init budget rounds_per_iter rounds_per_step bid_step memory
        = Ok fresh ->
      IMPCBudgetBidder.bid fresh value ctx estimated_CTR == truthful)
  /\ (forall spb_memory explore_bid_max fresh,
      SPBBidder.init budget rounds_per_iter rounds_per_step bid_step memory
        spb_memory explore_bid_max = Ok fresh ->
      SPBBidder.bid fresh value ctx estimated_CTR == truthful)
  /\ (forall kp ki kd bid_min bid_max,
      MPCBidder.bid
        (MPCBidder.init budget rounds_per_iter rounds_per_step bid_step memory
           kp ki kd bid_min bid_max) value ctx estimated_CTR == truthful).
Proof.
  intros Hb truthful. subst truthful. unfold TruthfulBidder.bid.
  assert (Hgate : Qltb 0 budget = true) by (apply Qltb_true; exact Hb).
  assert (Himpc : forall fresh,
    IMPCBudgetBidder.init budget rounds_per_iter rounds_per_step bid_step memory
      = Ok fresh ->
    IMPCBudgetBidder.bid fresh value ctx estimated_CTR == value * estimated_CTR).
  { intros fresh Hinit. apply init_fresh in Hinit. subst fresh.
    unfold IMPCBudgetBidder.bid. simpl. rewrite Hgate. ring. }
  split; [exact Himpc|]. split.
  - intros spb_memory explore_bid_max fresh Hinit.
    unfold SPBBidder.init in Hinit.
    destruct (IMPCBudgetBidder.init budget rounds_per_iter rounds_per_step
                bid_step memory) as [b|] eqn:Hb0; [|discriminate].
    injection Hinit as <-. unfold SPBBidder.bid. simpl. apply Himpc. reflexivity.
  - intros kp ki kd bid_min bid_max.
    unfold MPCBidder.bid. simpl. rewrite Hgate. ring.
Qed.

Lemma fresh_controllers_bid_truthfully_witness :
  0 < 10
  /\ MPCBidder.bid (MPCBidder.init 10 4 2 (1 # 10) 3 1 (1 # 10) 0 (1 # 2) 2)
       3 [] (1 # 2)
     == TruthfulBidder.bid TruthfulBidder.init 3 [] (1 # 2).
Proof.
  assert (H : 0 < 10) by reflexivity.
  split; [exact H|].
  exact (proj2 (proj2 (fresh_controllers_bid_truthfully 10 4 2 (1 # 10) 3
                         3 [] (1 # 2) H)) 1 (1 # 10) 0 (1 # 2) 2).
Defined.

(** ** Exploration without spend *)

(** X23: an IMPCBudgetBidder that is charged nothing (price 0 at each of
    [n] consecutive step boundaries, starting from a step without spend)
    takes the exploration branch at every boundary: [roi_bid] ends as the
    value obtained by adding [bid_step] to it [n] times, one addition per
    boundary; the solver is never consulted and nothing in the controller
    stops the climb. *)
Theorem IMPC_exploration_ramp
    (self : IMPCBudgetBidder.t) (cur_round : Z) (ctr value : Q) (n : nat) :
  IMPCBudgetBidder.rounds_per_step self <> 0%Z ->
  (cur_round mod IMPCBudgetBidder.rounds_per_step self = 0)%Z ->
  IMPCBudgetBidder.step_spending self < 1 # 1000000 ->
  IMPCBudgetBidder.roi_bid
    (IMPC_charges self (repeat (0, cur_round, ctr, value) n))
  = Nat.iter n (fun roi => roi + IMPCBudgetBidder.bid_step self)
      (IMPCBudgetBidder.roi_bid self).
Proof.
  revert self. induction n as [|n IH]; intros self Hrps Hmod Hss.
  - reflexivity.
  - cbn [repeat IMPC_charges].
    rewrite charge_boundary by assumption. cbn [state_of].
    rewrite IH; cbn [IMPCBudgetBidder.rounds_per_step
                      IMPCBudgetBidder.step_spending
                      IMPCBudgetBidder.roi_bid IMPCBudgetBidder.bid_step];
      try assumption; [|reflexivity].
    unfold IMPCBudgetBidder.calc_roi_bid.
    cbn [IMPCBudgetBidder.at_boundary IMPCBudgetBidder.step_spending
         IMPCBudgetBidder.set_bid2spend_history
         IMPCBudgetBidder.set_step_spending IMPCBudgetBidder.set_spending
         IMPCBudgetBidder.roi_bid IMPCBudgetBidder.bid_step].
    assert (Hlt : Qltb (IMPCBudgetBidder.step_spending self + 0) (1 # 1000000)
                  = true) by (apply Qltb_true; lra).
    rewrite Hlt. symmetry.
    exact (Nat.iter_succ_r n Q (fun roi => roi + IMPCBudgetBidder.bid_step self)
             (IMPCBudgetBidder.roi_bid self)).
Qed.

Lemma IMPC_exploration_ramp_witness :
  let self := IMPCBudgetBidder.Build 10 0 2 4 (20 # 4) [] (1 # 10) 1 0 3 in
  IMPCBudgetBidder.roi_bid (IMPC_charges self (repeat (0, 2%Z, 1, 1) 5))
  = 1 + (1 # 10) + (1 # 10) + (1 # 10) + (1 # 10) + (1 # 10).
Proof.
  intros self.
  refine (IMPC_exploration_ramp self 2 1 1 5 _ _ _).
  - discriminate.
  - reflexivity.
  - reflexivity.
Defined.

(** ** Concrete instances *)

Lemma aggregate_near_sample_length_witness :
  [(1, 10); (2, 20); (3, 30)] <> []
  /\ aggregate_near_sample [(1, 10); (2, 20); (3, 30)] <> [].
Proof.
  assert (H : [(1, 10); (2, 20); (3, 30)] <> []) by discriminate.
  split; [exact H|].
  exact (proj2 (aggregate_near_sample_length [(1, 10); (2, 20); (3, 30)]) H).
Defined.

Lemma increasing_subsequence_selects_witness :
  [(1, 10); (2, 5); (3, 30)] <> []
  /\ increasing_subsequence [(1, 10); (2, 5); (3, 30)] <> [].
Proof.
  assert (H : [(1, 10); (2, 5); (3, 30)] <> []) by discriminate.
  split; [exact H|].
  exact (proj2 (proj2 (increasing_subsequence_selects
                         [(1, 10); (2, 5); (3, 30)])) H).
Defined.

Lemma MPC_charge_spending_monotone_witness :
  let self := MPCBidder.init 10 4 2 (1 # 10) 3 1 (1 # 10) 0 (1 # 2) 2 in
  - (3) <= 0
  /\ MPCBidder.spending (state_of (MPCBidder.charge self (- (3)) 2 (1 # 2) 10))
     = MPCBidder.spending self.
Proof.
  intros self.
  assert (H : - (3) <= 0) by (vm_compute; discriminate).
  split; [exact H|].
  exact (proj1 (proj2 (MPC_charge_spending_monotone self (- (3)) 2 (1 # 2) 10) H)).
Defined.
